(** * CNPJ batch enrichment: the loader, the retrying client, the
      normaliser and the batch driver of [cnpj_request.py] (variant 1) and
      [cnpj_requestv2.py] (variant 2, "detailed"), embedded as functions.

    Conventions of the embedding.
    - Python text is a [string]: a sequence of characters with code points
      below 256.  On these, the pattern [\d] matches exactly ['0'..'9'] and
      [str.strip] removes the characters recognised by [is_space].
    - A decoded JSON document is a [json] value; a Python [dict] is a
      [gmap] with string keys.
    - An exception that the code does not catch is a [Raise] result.
    - The network is an oracle indexed by the number of requests issued so
      far; every request and every [time.sleep] is appended to a trace. *)

From Stdlib Require Import ZArith Ascii String.
From stdpp Require Import gmap strings list fin_maps.

#[local] Set Warnings "-register-all".
#[local] Open Scope string_scope.
#[local] Open Scope list_scope.

(** ** Python text primitives *)

Definition is_digit (c : ascii) : bool :=
  ((48 <=? nat_of_ascii c) && (nat_of_ascii c <=? 57))%nat.

(** Whitespace as [str.strip] understands it, below code point 256:
    TAB..CR, FS..US, SPACE, NEL and NBSP. *)
Definition is_space (c : ascii) : bool :=
  let n := nat_of_ascii c in
  (((9 <=? n) && (n <=? 13)) || ((28 <=? n) && (n <=? 32))
   || (n =? 133) || (n =? 160))%nat.

Fixpoint lstrip (s : string) : string :=
  match s with
  | EmptyString => EmptyString
  | String c rest => if is_space c then lstrip rest else s
  end.

Fixpoint rstrip (s : string) : string :=
  match s with
  | EmptyString => EmptyString
  | String c rest =>
      match rstrip rest with
      | EmptyString => if is_space c then EmptyString else String c EmptyString
      | kept => String c kept
      end
  end.

(** [s.strip()] *)
Definition strip (s : string) : string := rstrip (lstrip s).

(** [re.sub(r'\D', '', s)] *)
Fixpoint re_sub_non_digits (s : string) : string :=
  match s with
  | EmptyString => EmptyString
  | String c rest =>
      if is_digit c then String c (re_sub_non_digits rest)
      else re_sub_non_digits rest
  end.

Fixpoint zeros (n : nat) : string :=
  match n with
  | O => EmptyString
  | S m => String "0" (zeros m)
  end.

(** [s.zfill(width)]: pads on the left with ['0'], after a leading sign. *)
Definition zfill (width : nat) (s : string) : string :=
  if (width <=? String.length s)%nat then s
  else
    let fill := zeros (width - String.length s) in
    match s with
    | String c rest =>
        if (Ascii.eqb c "+" || Ascii.eqb c "-")%bool
        then String c (fill +:+ rest)
        else fill +:+ s
    | EmptyString => fill
    end.

(** Truth value of a [str]. *)
Definition str_truthy (s : string) : bool :=
  match s with
  | EmptyString => false
  | String _ _ => true
  end.

(** [sep.join(parts)] *)
Fixpoint join (sep : string) (parts : list string) : string :=
  match parts with
  | [] => EmptyString
  | [p] => p
  | p :: more => p +:+ sep +:+ join sep more
  end.

Fixpoint all_digits (s : string) : bool :=
  match s with
  | EmptyString => true
  | String c rest => is_digit c && all_digits rest
  end.

Definition LF : ascii := "010"%char.
Definition CR : ascii := "013"%char.

(** Iterating over a file opened in text mode: the text is cut after each
    line ending; ["\r\n"] and a lone ["\r"] are read as ["\n"]. *)
Fixpoint readlines (text : string) : list string :=
  match text with
  | EmptyString => []
  | String c rest =>
      if Ascii.eqb c LF then String LF EmptyString :: readlines rest
      else if Ascii.eqb c CR then
        match rest with
        | String c2 rest2 =>
            if Ascii.eqb c2 LF then String LF EmptyString :: readlines rest2
            else String LF EmptyString :: readlines rest
        | EmptyString => [String LF EmptyString]
        end
      else
        match readlines rest with
        | [] => [String c EmptyString]
        | line :: more => String c line :: more
        end
  end.

(** ** JSON values and the dynamic operations the code applies to them *)

(** A number is kept as an integer: the code only ever tests a payload
    value for truth, compares it with a string or passes it on. *)
Inductive json : Type :=
| JNull
| JBool (b : bool)
| JNum (n : Z)
| JStr (s : string)
| JArr (items : list json)
| JObj (fields : gmap string json).

Inductive exn : Type := AttributeError | TypeError | KeyError | ValueError.

Inductive result (A : Type) : Type :=
| Ok (value : A)
| Raise (e : exn).
Arguments Ok {A} value.
Arguments Raise {A} e.

#[global] Instance result_ret : MRet result := @Ok.
#[global] Instance result_bind : MBind result :=
  λ A B f m, match m with Ok a => f a | Raise e => Raise e end.

(** Truth value of a Python object. *)
Definition truthy (v : json) : bool :=
  match v with
  | JNull => false
  | JBool b => b
  | JNum n => negb (n =? 0)%Z
  | JStr s => str_truthy s
  | JArr items => match items with [] => false | _ :: _ => true end
  | JObj fields => negb (size fields =? 0)%nat
  end.

(** [d.get(key, default)]: only a [dict] has the method. *)
Definition dict_get (d : json) (key : string) (default : json) : result json :=
  match d with
  | JObj fields => Ok (match fields !! key with Some v => v | None => default end)
  | _ => Raise AttributeError
  end.

(** [v.strip()]: only a [str] has the method. *)
Definition str_strip (v : json) : result string :=
  match v with
  | JStr s => Ok (strip s)
  | _ => Raise AttributeError
  end.

(** [v == s] for a string literal [s]. *)
Definition eq_str (v : json) (s : string) : bool :=
  match v with
  | JStr t => String.eqb t s
  | _ => false
  end.

Fixpoint chars (s : string) : list json :=
  match s with
  | EmptyString => []
  | String c rest => JStr (String c EmptyString) :: chars rest
  end.

(** The items a [for] loop draws from an object: the elements of a list,
    the characters of a string, the keys of a dict (all of them strings,
    in the order of [map_to_list]); other values are not iterable. *)
Definition iterate (v : json) : result (list json) :=
  match v with
  | JArr items => Ok items
  | JStr s => Ok (chars s)
  | JObj fields => Ok (JStr <$> (map_to_list fields).*1)
  | JNull | JBool _ | JNum _ => Raise TypeError
  end.

(** [d[key]] on a dict of the program's own making. *)
Definition subscript {V : Type} (d : gmap string V) (key : string) : result V :=
  match d !! key with
  | Some v => Ok v
  | None => Raise KeyError
  end.

(** Monadic [map], left to right. *)
Fixpoint traverse {A B : Type} (f : A → result B) (l : list A) : result (list B) :=
  match l with
  | [] => Ok []
  | x :: more => y ← f x; ys ← traverse f more; Ok (y :: ys)
  end.

(** ** The network and the clock *)

Definition RECEITAWS_BASE_URL : string := "https://www.receitaws.com.br/v1/cnpj/".
Definition MAX_API_RETRIES : nat := 5.

(** What [session.get] does: it raises a [RequestException] (time-out,
    connection error) or hands back a response, whose body is taken to be
    the JSON document that [response.json()] decodes. *)
Inductive http_result : Type :=
| RequestFailed
| Response (status_code : Z) (body : json).

(** [PacingWait] marks the driver's check of the 20 s interval between
    identifiers (it sleeps for what remains of the interval, if anything). *)
Inductive event : Type :=
| Get (url : string)
| Sleep (seconds : Z)
| PacingWait.

Record world : Type := World { requests : nat; trace : list event }.

(** The answer to the [k]-th request of the run, given its URL. *)
Definition endpoint : Type := nat → string → http_result.

Definition session_get (env : endpoint) (url : string) (w : world)
  : http_result * world :=
  (env (requests w) url,
   {| requests := S (requests w); trace := trace w ++ [Get url] |}).

Definition time_sleep (seconds : Z) (w : world) : world :=
  {| requests := requests w; trace := trace w ++ [Sleep seconds] |}.

Definition pacing_wait (w : world) : world :=
  {| requests := requests w; trace := trace w ++ [PacingWait] |}.

(** [response.raise_for_status()] raises [HTTPError], a [RequestException],
    on a 4xx or 5xx status. *)
Definition raise_for_status (status_code : Z) : bool :=
  ((400 <=? status_code) && (status_code <? 600))%Z.

(** [csv.DictWriter]: a row dict with a key outside [fieldnames] raises
    [ValueError]; a missing key is written as the empty string. *)
Definition dict_to_list (fieldnames : list string) (rowdict : gmap string string)
  : result (list string) :=
  if bool_decide (dom rowdict ⊆ list_to_set fieldnames)
  then Ok ((λ k, default "" (rowdict !! k)) <$> fieldnames)
  else Raise ValueError.

Definition writerows (fieldnames : list string) (rows : list (gmap string string))
  : result (list (list string)) :=
  traverse (dict_to_list fieldnames) rows.

(** ** Variant 1: [cnpj_request.py] *)

Module V1.

(** The body of the [for line_content in f] loop of [load_and_clean_cnpjs]. *)
Fixpoint formatted_cnpjs (lines : list string) : list string :=
  match lines with
  | [] => []
  | line_content :: more =>
      let clean_cnpj_line := strip line_content in
      if str_truthy clean_cnpj_line then
        let numeric_cnpj := re_sub_non_digits clean_cnpj_line in
        zfill 14 numeric_cnpj :: formatted_cnpjs more
      else formatted_cnpjs more
  end.

(** [None]: the file cannot be opened; the error is logged.  Otherwise
    the file is given by its decoded text. *)
Definition load_and_clean_cnpjs (file : option string) : list string :=
  match file with
  | Some text => formatted_cnpjs (readlines text)
  | None => []
  end.

(** The [for attempt_number in range(1, MAX_API_RETRIES + 1)] loop, run on
    the attempt numbers that are left. *)
Fixpoint attempt_loop (env : endpoint) (url : string) (attempt_numbers : list nat)
    (backoff_factor : Z) (w : world) : option json * world :=
  match attempt_numbers with
  | [] => (None, w)
  | attempt_number :: later =>
      let '(response, w) := session_get env url w in
      let except_RequestException :=
        if (attempt_number <? MAX_API_RETRIES)%nat then
          attempt_loop env url later (backoff_factor * 2)
            (time_sleep (backoff_factor * 2) w)
        else (None, w) in
      match response with
      | RequestFailed => except_RequestException
      | Response status_code body =>
          if (status_code =? 429)%Z then
            attempt_loop env url later (backoff_factor * 2)
              (time_sleep (backoff_factor * 5) w)
          else if raise_for_status status_code then except_RequestException
          else (Some body, w)
      end
  end.

Definition query_receitaws_api (env : endpoint) (cnpj : string) (w : world)
  : option json * world :=
  let url := RECEITAWS_BASE_URL +:+ cnpj in
  attempt_loop env url (seq 1 MAX_API_RETRIES) 1 w.

Definition placeholder (cnpj : string) : gmap string string :=
  {[ "cnpj" := cnpj; "nome_qsa" := "N/A"; "qualificacao_qsa" := "N/A" ]}.

(** The [for partner_info in qsa_list_from_api] loop. *)
Fixpoint partner_loop (cnpj : string) (partners : list json)
    (qsa_results : list (gmap string string)) : result (list (gmap string string)) :=
  match partners with
  | [] => Ok qsa_results
  | partner_info :: more =>
      partner_name ← dict_get partner_info "nome" (JStr "") ≫= str_strip;
      partner_qualification ← dict_get partner_info "qual" (JStr "") ≫= str_strip;
      partner_loop cnpj more
        (qsa_results ++
           [ {[ "cnpj" := cnpj;
                "nome_qsa" :=
                  if str_truthy partner_name then partner_name else "N/A";
                "qualificacao_qsa" :=
                  if str_truthy partner_qualification
                  then partner_qualification else "N/A" ]} ])
  end.

(** The value logged as [error_message] has no effect on the records. *)
Definition process_api_response (cnpj : string) (api_data : option json)
  : result (list (gmap string string)) :=
  let qsa_results := [] in
  let error_branch := Ok (qsa_results ++ [placeholder cnpj]) in
  match api_data with
  | None => error_branch
  | Some data =>
      if negb (truthy data) then error_branch
      else
        status ← dict_get data "status" JNull;
        if eq_str status "ERROR" then error_branch
        else
          qsa_list_from_api ← dict_get data "qsa" (JArr []);
          if truthy qsa_list_from_api then
            partners ← iterate qsa_list_from_api;
            partner_loop cnpj partners qsa_results
          else Ok (qsa_results ++ [placeholder cnpj])
  end.

(** The [for index, cnpj_value in enumerate(cnpjs_to_process)] loop. *)
Fixpoint batch_loop (env : endpoint) (cnpjs_to_process : list string)
    (all_qsa_results : list (gmap string string)) (w : world)
  : result (list (gmap string string)) * world :=
  match cnpjs_to_process with
  | [] => (Ok all_qsa_results, w)
  | cnpj_value :: more =>
      let w := pacing_wait w in
      let '(api_response_data, w) := query_receitaws_api env cnpj_value w in
      match process_api_response cnpj_value api_response_data with
      | Ok current_cnpj_qsa_results =>
          batch_loop env more (all_qsa_results ++ current_cnpj_qsa_results) w
      | Raise e => (Raise e, w)
      end
  end.

Definition csv_field_names : list string := ["cnpj"; "nome_qsa"; "qualificacao_qsa"].

(** The result is the table written to the output file, header first;
    [None] when [main] returns without writing.  The output file is taken
    to be writable (an [IOError] would only be logged). *)
Definition main (env : endpoint) (file : option string) (w : world)
  : result (option (list (list string))) * world :=
  let cnpjs_to_process := load_and_clean_cnpjs file in
  match cnpjs_to_process with
  | [] => (Ok None, w)
  | _ :: _ =>
      match batch_loop env cnpjs_to_process [] w with
      | (Ok [], w) => (Ok None, w)
      | (Ok all_qsa_results, w) =>
          match writerows csv_field_names all_qsa_results with
          | Ok rows => (Ok (Some (csv_field_names :: rows)), w)
          | Raise e => (Raise e, w)
          end
      | (Raise e, w) => (Raise e, w)
      end
  end.

End V1.

(** ** Variant 2: [cnpj_requestv2.py] *)

Module V2.

Fixpoint formatted_cnpjs (lines : list string) : list string :=
  match lines with
  | [] => []
  | line :: more =>
      let num := re_sub_non_digits (strip line) in
      if str_truthy num then zfill 14 num :: formatted_cnpjs more
      else formatted_cnpjs more
  end.

Definition load_and_clean_cnpjs (file : option string) : list string :=
  match file with
  | Some text => formatted_cnpjs (readlines text)
  | None => []
  end.

(** Here the last failed attempt falls through to the end of the loop. *)
Fixpoint attempt_loop (env : endpoint) (url : string) (attempts : list nat)
    (backoff : Z) (w : world) : option json * world :=
  match attempts with
  | [] => (None, w)
  | attempt :: later =>
      let '(resp, w) := session_get env url w in
      let except_RequestException :=
        if (attempt <? MAX_API_RETRIES)%nat then
          attempt_loop env url later (backoff * 2) (time_sleep (backoff * 2) w)
        else attempt_loop env url later backoff w in
      match resp with
      | RequestFailed => except_RequestException
      | Response status_code body =>
          if (status_code =? 429)%Z then
            let wait := (backoff * 5)%Z in
            attempt_loop env url later (backoff * 2) (time_sleep wait w)
          else if raise_for_status status_code then except_RequestException
          else (Some body, w)
      end
  end.

Definition query_receitaws_api (env : endpoint) (cnpj : string) (w : world)
  : option json * world :=
  let url := RECEITAWS_BASE_URL +:+ cnpj in
  attempt_loop env url (seq 1 MAX_API_RETRIES) 1 w.

Definition extract_company_details (api : json) : result (gmap string json) :=
  nome ← dict_get api "nome" (JStr "N/A");
  situacao ← dict_get api "situacao" (JStr "N/A");
  municipio ← dict_get api "municipio" (JStr "N/A");
  uf ← dict_get api "uf" (JStr "N/A");
  telefone ← dict_get api "telefone" (JStr "N/A");
  Ok {[ "nome_empresa" := nome;
        "situacao" := situacao;
        "cidade" := municipio;
        "estado" := uf;
        "telefone_receita" := telefone ]}.

(** The [for socio in api_data.get('qsa', [])] loop. *)
Fixpoint socio_loop (cnpj : string) (socios : list json)
    (socios_list : list (gmap string string)) : result (list (gmap string string)) :=
  match socios with
  | [] => Ok socios_list
  | socio :: more =>
      stripped ← dict_get socio "nome" (JStr "") ≫= str_strip;
      let nome := if str_truthy stripped then stripped else "N/A" in
      socio_loop cnpj more (socios_list ++ [ {[ "cnpj" := cnpj; "nome_qsa" := nome ]} ])
  end.

Definition process_api_response (cnpj : string) (api_data : option json)
  : result (list (gmap string string)) :=
  let socios_list := [] in
  let error_branch := Ok [ ({[ "cnpj" := cnpj; "nome_qsa" := "N/A" ]} : gmap string string) ] in
  match api_data with
  | None => error_branch
  | Some data =>
      if negb (truthy data) then error_branch
      else
        status ← dict_get data "status" JNull;
        if eq_str status "ERROR" then error_branch
        else
          qsa ← dict_get data "qsa" (JArr []);
          socios ← iterate qsa;
          socios_list ← socio_loop cnpj socios socios_list;
          match socios_list with
          | [] => Ok (socios_list ++ [ {[ "cnpj" := cnpj; "nome_qsa" := "N/A" ]} ])
          | _ :: _ => Ok socios_list
          end
  end.

(** [api_data or {}] *)
Definition or_empty_dict (api_data : option json) : json :=
  match api_data with
  | Some data => if truthy data then data else JObj ∅
  | None => JObj ∅
  end.

Section Driver.

(** The external collaborator: the web search for a telephone number.  It
    swallows its own errors and answers a number or ["N/A"]. *)
Variable get_telefone_site_empresa : json → string.

(** One pass of the loop body, from [extract_company_details] on. *)
Definition detailed_row (cnpj : string) (api_data : option json)
  : result (gmap string json) :=
  detalhes ← extract_company_details (or_empty_dict api_data);
  socios ← process_api_response cnpj api_data;
  nomes_socios ← traverse (λ s, subscript s "nome_qsa") socios;
  let dono := join "/" nomes_socios in
  nome_empresa ← subscript detalhes "nome_empresa";
  let telefone_site := get_telefone_site_empresa nome_empresa in
  Ok (<["telefone_site" := JStr telefone_site]>
        (<["dono" := JStr dono]> (<["cnpj" := JStr cnpj]> detalhes))).

(** The [for idx, cnpj in enumerate(cnpjs, 1)] loop. *)
Fixpoint batch_loop (env : endpoint) (cnpjs : list string)
    (detailed_results : list (gmap string json)) (w : world)
  : result (list (gmap string json)) * world :=
  match cnpjs with
  | [] => (Ok detailed_results, w)
  | cnpj :: more =>
      let w := pacing_wait w in
      let '(api_data, w) := query_receitaws_api env cnpj w in
      match detailed_row cnpj api_data with
      | Ok row => batch_loop env more (detailed_results ++ [row]) w
      | Raise e => (Raise e, w)
      end
  end.

(** The result is the list of rows handed to the writer; [None] when
    [main] returns without writing. *)
Definition main (env : endpoint) (file : option string) (w : world)
  : result (option (list (gmap string json))) * world :=
  let cnpjs := load_and_clean_cnpjs file in
  match cnpjs with
  | [] => (Ok None, w)
  | _ :: _ =>
      match batch_loop env cnpjs [] w with
      | (Ok detailed_results, w) => (Ok (Some detailed_results), w)
      | (Raise e, w) => (Raise e, w)
      end
  end.

End Driver.

End V2.

(** ** Auxiliary notions used by the statements *)

(** The shape of a payload of the lookup service: an object whose partner
    list [qsa], when present, is a list of objects whose [nome] and [qual],
    when present, are strings. *)
Definition str_or_missing (v : option json) : bool :=
  match v with
  | None | Some (JStr _) => true
  | Some _ => false
  end.

Definition partner_shape (p : json) : bool :=
  match p with
  | JObj fields => str_or_missing (fields !! "nome") && str_or_missing (fields !! "qual")
  | _ => false
  end.

Definition payload_shape (data : json) : bool :=
  match data with
  | JObj fields =>
      match fields !! "qsa" with
      | None => true
      | Some (JArr partners) => forallb partner_shape partners
      | Some _ => false
      end
  | _ => false
  end.

Definition api_data_shape (api_data : option json) : bool :=
  match api_data with
  | None => true
  | Some data => payload_shape data
  end.

(** The identifier built from one line. *)
Definition identifier_of (line : string) : string :=
  zfill 14 (re_sub_non_digits (strip line)).

(** What the normaliser makes of one well-shaped partner entry. *)
Definition field_text (p : json) (key : string) : string :=
  match p with
  | JObj fields => match fields !! key with Some (JStr s) => s | _ => "" end
  | _ => ""
  end.

Definition or_placeholder (text : string) : string :=
  if str_truthy (strip text) then strip text else "N/A".

Definition partner_record_v1 (cnpj : string) (p : json) : gmap string string :=
  {[ "cnpj" := cnpj;
     "nome_qsa" := or_placeholder (field_text p "nome");
     "qualificacao_qsa" := or_placeholder (field_text p "qual") ]}.

Definition partner_record_v2 (cnpj : string) (p : json) : gmap string string :=
  {[ "cnpj" := cnpj; "nome_qsa" := or_placeholder (field_text p "nome") ]}.

(** The records of variant 1, whatever the two texts are. *)
Definition record_v1 (cnpj : string) (r : gmap string string) : Prop :=
  ∃ nome qual : string,
    r = {[ "cnpj" := cnpj; "nome_qsa" := nome; "qualificacao_qsa" := qual ]}.

Definition record_v2 (cnpj : string) (r : gmap string string) : Prop :=
  ∃ nome : string, r = {[ "cnpj" := cnpj; "nome_qsa" := nome ]}.

Definition placeholder_v2 (cnpj : string) : gmap string string :=
  {[ "cnpj" := cnpj; "nome_qsa" := "N/A" ]}.

(** A response that makes an attempt fail: a raised [RequestException], a
    429, or a status that [raise_for_status] rejects. *)
Definition failed (r : http_result) : bool :=
  match r with
  | RequestFailed => true
  | Response status_code _ => (status_code =? 429)%Z || raise_for_status status_code
  end.

(** An endpoint that plays a script, request after request, and then
    repeats [after]. *)
Definition scripted (script : list http_result) (after : http_result) : endpoint :=
  λ k _, nth k script after.

(** An endpoint whose bodies all have the shape of a payload. *)
Definition response_shape (r : http_result) : bool :=
  match r with
  | RequestFailed => true
  | Response _ body => payload_shape body
  end.

Definition env_shape (env : endpoint) : Prop :=
  ∀ k url, response_shape (env k url) = true.

Definition cnpj_of (r : gmap string string) : string := default "" (r !! "cnpj").
Definition nome_of (r : gmap string string) : string := default "" (r !! "nome_qsa").

(** The identifiers found in the first column of a written table. *)
Definition identifiers_in (table : option (list (list string))) : gset string :=
  match table with
  | Some (header :: rows) => list_to_set (omap head rows)
  | _ => ∅
  end.

Definition nonblank (line : string) : bool := str_truthy (strip line).
Definition has_digit (line : string) : bool :=
  str_truthy (re_sub_non_digits (strip line)).

Definition count_lines (keep : string → bool) (file : option string) : nat :=
  match file with
  | Some text => length (List.filter keep (readlines text))
  | None => 0
  end.

(** Does [keep] hold of every line of the file? *)
Definition every_line (keep : string → bool) (file : option string) : bool :=
  match file with
  | Some text => forallb keep (readlines text)
  | None => true
  end.

(** The retry loop as the specification words it, to be compared with
    [attempt_loop]: a 429 waits and then retries the same attempt slot, so
    that it does not use up an attempt number.  [fuel] bounds the number of
    requests. *)
Fixpoint attempt_loop_same_slot (fuel : nat) (env : endpoint) (url : string)
    (attempt_numbers : list nat) (backoff_factor : Z) (w : world)
  : option json * world :=
  match fuel, attempt_numbers with
  | O, _ | _, [] => (None, w)
  | S fuel, attempt_number :: later =>
      let '(response, w) := session_get env url w in
      let on_error :=
        if (attempt_number <? MAX_API_RETRIES)%nat then
          attempt_loop_same_slot fuel env url later (backoff_factor * 2)
            (time_sleep (backoff_factor * 2) w)
        else (None, w) in
      match response with
      | RequestFailed => on_error
      | Response status_code body =>
          if (status_code =? 429)%Z then
            attempt_loop_same_slot fuel env url (attempt_number :: later)
              (backoff_factor * 2) (time_sleep (backoff_factor * 5) w)
          else if raise_for_status status_code then on_error
          else (Some body, w)
      end
  end.

Definition query_same_slot (fuel : nat) (env : endpoint) (cnpj : string) (w : world)
  : option json * world :=
  attempt_loop_same_slot fuel env (RECEITAWS_BASE_URL +:+ cnpj)
    (seq 1 MAX_API_RETRIES) 1 w.

(** ** Sample inputs *)

Definition sample_cnpj : string := "11222333000181".
Definition sample_url : string := RECEITAWS_BASE_URL +:+ sample_cnpj.
Definition fresh : world := World 0 [].

Definition acme : json :=
  JObj {[ "status" := JStr "OK"; "nome" := JStr "ACME";
          "qsa" := JArr [ JObj {[ "nome" := JStr "  "; "qual" := JStr "Owner" ]} ] ]}.

Definition api_error : json :=
  JObj {[ "status" := JStr "ERROR"; "message" := JStr "CNPJ rejeitado" ]}.

Definition error_with_partner : json :=
  JObj {[ "status" := JStr "ERROR"; "message" := JStr "CNPJ rejeitado";
          "qsa" := JArr [ JObj {[ "nome" := JStr "ANA"; "qual" := JStr "Owner" ]} ] ]}.

Definition two_partners : json :=
  JObj {[ "status" := JStr "OK"; "nome" := JStr "ACME";
          "qsa" := JArr [ JObj {[ "nome" := JStr "ANA"; "qual" := JStr "Owner" ]};
                          JObj {[ "nome" := JStr " "; "qual" := JStr "Partner" ]} ] ]}.

Definition fifteen_digits : option string :=
  Some ("123456789012345" +:+ String LF "").

Definition no_digit_line : option string := Some ("abc" +:+ String LF "").

Definition same_line_twice : option string :=
  Some ("1" +:+ String LF ("0001" +:+ String LF "")).

Definition formatted_and_blank : option string :=
  Some ("11.222.333/0001-81" +:+ String LF (" " +:+ String LF (" 191 " +:+ String LF ""))).

Definition too_many_twice : endpoint :=
  scripted [Response 429 JNull; Response 429 JNull; Response 200 acme] RequestFailed.

Definition too_many_five_times : endpoint :=
  scripted (replicate 5 (Response 429 JNull)) (Response 200 acme).

Definition always_down : endpoint := λ _ _, RequestFailed.

Definition always_acme : endpoint := λ _ _, Response 200 acme.

Definition no_google : json → string := λ _, "N/A".

(** ** The telephone lookup of variant 2 *)

(** The fragment of regular expressions that the pattern of
    [get_phone_from_website] uses. [RRepeat r lo extra] is [r{lo,lo+extra}];
    [ROpt] and [RRepeat] are greedy. *)
Inductive regex : Type :=
| RChar (c : ascii)
| RClass (member : ascii → bool)
| RSeq (r1 r2 : regex)
| ROpt (r : regex)
| RRepeat (r : regex) (lo extra : nat).

(** A backtracking matcher: [re_match r s k] matches [r] at the start of
    [s] and hands what is left to the continuation [k]; when [k] fails the
    matcher falls back on its next alternative.  The result is what is left
    of [s] after the whole match. *)
Fixpoint re_match (r : regex) (s : string) (k : string → option string)
  : option string :=
  match r with
  | RChar c =>
      match s with
      | String c' rest => if Ascii.eqb c' c then k rest else None
      | EmptyString => None
      end
  | RClass member =>
      match s with
      | String c' rest => if member c' then k rest else None
      | EmptyString => None
      end
  | RSeq r1 r2 => re_match r1 s (λ s1, re_match r2 s1 k)
  | ROpt r1 =>
      match re_match r1 s k with
      | Some remains => Some remains
      | None => k s
      end
  | RRepeat r1 lo extra =>
      (fix exactly (n : nat) (s : string) (k : string → option string) :=
         match n with
         | O => k s
         | S n' => re_match r1 s (λ s1, exactly n' s1 k)
         end) lo s
        ((fix at_most (n : nat) (s : string) :=
           match n with
           | O => k s
           | S n' =>
               match re_match r1 s (at_most n') with
               | Some remains => Some remains
               | None => k s
               end
           end) extra)
  end.

(** [r'\(?\d{2}\)?\s?\d{4,5}-\d{4}'] *)
Definition phone_pattern : regex :=
  RSeq (ROpt (RChar "("))
    (RSeq (RRepeat (RClass is_digit) 2 0)
       (RSeq (ROpt (RChar ")"))
          (RSeq (ROpt (RClass is_space))
             (RSeq (RRepeat (RClass is_digit) 4 1)
                (RSeq (RChar "-") (RRepeat (RClass is_digit) 4 0)))))).

Fixpoint take_string (n : nat) (s : string) : string :=
  match n, s with
  | S n', String c rest => String c (take_string n' rest)
  | _, _ => EmptyString
  end.

(** [re.findall(r, text)] for a pattern without groups that matches no
    empty string: the matches from left to right, none overlapping another.
    [skip] counts the characters still covered by the last match. *)
Fixpoint findall (r : regex) (text : string) (skip : nat) : list string :=
  match text with
  | EmptyString => []
  | String _ rest =>
      match skip with
      | S skip' => findall r rest skip'
      | O =>
          match re_match r text Some with
          | Some remains =>
              let n := String.length text - String.length remains in
              take_string n text :: findall r rest (n - 1)
          | None => findall r rest 0
          end
      end
  end.

(** What [requests.get(url)] does for a web page: it raises, or hands back
    a response with a status and a text. *)
Inductive page : Type :=
| PageFailed
| Page (status_code : Z) (text : string).

(** Every exception is swallowed and turned into [None]. *)
Definition get_phone_from_website (web : string → page) (url : string)
  : option string :=
  match web url with
  | PageFailed => None
  | Page status_code text =>
      if raise_for_status status_code then None
      else
        match findall phone_pattern text 0 with
        | first :: _ => Some first
        | [] => None
        end
  end.

Section Telefone.

(** [str(v)] for a payload value that is not a string. *)
Variable str_of_value : json → string.

(** The URLs that [search(query, stop=1, lang='pt')] yields before it
    stops or raises; an exception ends the loop like the end of the results
    does, for it is caught around the whole loop. *)
Variable search : string → list string.

Variable web : string → page.

(** [f"{v}"] *)
Definition format_value (v : json) : string :=
  match v with
  | JStr s => s
  | _ => str_of_value v
  end.

(** The [for url in search(...)] loop. *)
Fixpoint url_loop (urls : list string) : option string :=
  match urls with
  | [] => None
  | url :: more =>
      match get_phone_from_website web url with
      | Some tel => if str_truthy tel then Some tel else url_loop more
      | None => url_loop more
      end
  end.

Definition get_telefone_site_empresa (company_name : json) : string :=
  let query := "site official " +:+ format_value company_name in
  match url_loop (search query) with
  | Some tel => tel
  | None => "N/A"
  end.

End Telefone.

(** The words that a pattern can match. *)
Fixpoint lang (r : regex) (m : string) : Prop :=
  match r with
  | RChar c => m = String c EmptyString
  | RClass member => ∃ c, member c = true ∧ m = String c EmptyString
  | RSeq r1 r2 => ∃ m1 m2, m = m1 +:+ m2 ∧ lang r1 m1 ∧ lang r2 m2
  | ROpt r1 => m = EmptyString ∨ lang r1 m
  | RRepeat r1 lo extra =>
      ∃ ms, (lo ≤ length ms ≤ lo + extra)%nat ∧
            Forall (lang r1) ms ∧ m = foldr String.append EmptyString ms
  end.

(** The two loops of [re_match] on [RRepeat], given the matcher [step] of
    the repeated pattern. *)
Section Repeat.

Variable step : string → (string → option string) → option string.

Fixpoint rep_exactly (n : nat) (s : string) (k : string → option string)
  : option string :=
  match n with
  | O => k s
  | S n' => step s (λ s1, rep_exactly n' s1 k)
  end.

Section At_most.

Variable k : string → option string.

Fixpoint rep_at_most (n : nat) (s : string) : option string :=
  match n with
  | O => k s
  | S n' =>
      match step s (rep_at_most n') with
      | Some remains => Some remains
      | None => k s
      end
  end.

End At_most.

End Repeat.

(** The concatenation of a list of words. *)
Definition concat_words (ms : list string) : string :=
  foldr String.append EmptyString ms.

(** The least and the greatest length of a word of a pattern. *)
Fixpoint min_length (r : regex) : nat :=
  match r with
  | RChar _ | RClass _ => 1
  | RSeq r1 r2 => min_length r1 + min_length r2
  | ROpt _ => 0
  | RRepeat r1 lo _ => lo * min_length r1
  end.

Fixpoint max_length (r : regex) : nat :=
  match r with
  | RChar _ | RClass _ => 1
  | RSeq r1 r2 => max_length r1 + max_length r2
  | ROpt r1 => max_length r1
  | RRepeat r1 lo extra => (lo + extra) * max_length r1
  end.

(** The column names of the writer of variant 2. *)
Definition fieldnames_v2 : list string :=
  ["nome_empresa"; "situacao"; "cidade"; "estado"; "cnpj"; "dono";
   "telefone_site"; "telefone_receita"].

(** ** Further notions used by the statements *)


(** A failure other than a 429. *)
Definition generic_error (r : http_result) : bool :=
  match r with
  | RequestFailed => true
  | Response status_code _ =>
      negb (status_code =? 429)%Z && raise_for_status status_code
  end.

(** The events that a step has added to the trace. *)
Definition added (before after : world) : list event :=
  drop (length (trace before)) (trace after).

Definition sleeps_of (events : list event) : list Z :=
  omap (λ e, match e with Sleep seconds => Some seconds | _ => None end) events.

Definition gets_of (events : list event) : list string :=
  omap (λ e, match e with Get url => Some url | _ => None end) events.

Definition pacing_waits_of (events : list event) : nat :=
  length (List.filter (λ e, match e with PacingWait => true | _ => false end) events).

Definition sum_Z (l : list Z) : Z := foldr Z.add 0%Z l.

(** The sleeps of one lookup: each lasts five times or twice the factor,
    and the factor doubles after each of them. *)
Fixpoint backoff_schedule (factor : Z) (sleeps : list Z) : Prop :=
  match sleeps with
  | [] => True
  | seconds :: more =>
      (seconds = factor * 5 ∨ seconds = factor * 2)%Z ∧
      backoff_schedule (factor * 2) more
  end.

(** A cell of the output: not empty, and with no white space around it. *)
Definition clean_text (s : string) : Prop := s ≠ EmptyString ∧ strip s = s.

Definition clean_record_v1 (r : gmap string string) : Prop :=
  ∃ nome qual, r !! "nome_qsa" = Some nome ∧ r !! "qualificacao_qsa" = Some qual ∧
               clean_text nome ∧ clean_text qual.

Definition clean_record_v2 (r : gmap string string) : Prop :=
  ∃ nome, r !! "nome_qsa" = Some nome ∧ clean_text nome.

(** The number of records that the normalisers make of a payload of the
    service's shape. *)
Definition record_count (api_data : option json) : nat :=
  match api_data with
  | Some (JObj fields) =>
      if eq_str (default JNull (fields !! "status")) "ERROR" then 1
      else
        match fields !! "qsa" with
        | Some (JArr partners) => 1 `max` length partners
        | _ => 1
        end
  | _ => 1
  end.

Definition w_after_two : world :=
  (V1.batch_loop always_acme [sample_cnpj; "00000000000191"] [] fresh).2.

Definition json_list : json := JArr [JNum 1].

Definition null_partners : gmap string json :=
  {[ "status" := JStr "OK"; "qsa" := JNull ]}.

Definition page_with_phone : string := "Fale conosco: (11) 3456-7890 ou 98765-4321.".

Example readlines_ex :
  readlines ("1" +:+ String CR (String LF ("2" +:+ String CR ("3" +:+ String LF "4"))))
  = ["1" +:+ String LF ""; "2" +:+ String LF ""; "3" +:+ String LF ""; "4"].
Proof. reflexivity. Qed.

Example load_ex :
  V1.load_and_clean_cnpjs (Some ("11.222.333/0001-81" +:+ String LF ""))
  = ["11222333000181"].
Proof. reflexivity. Qed.

Example acme_ex :
  V1.process_api_response "11222333000181" (Some acme)
  = Ok [ {[ "cnpj" := "11222333000181"; "nome_qsa" := "N/A";
            "qualificacao_qsa" := "Owner" ]} ].
Proof. vm_compute. reflexivity. Qed.

Example query_ex :
  V1.query_receitaws_api too_many_twice "1" fresh
  = (Some acme, World 3 [Get (RECEITAWS_BASE_URL +:+ "1"); Sleep 5;
                         Get (RECEITAWS_BASE_URL +:+ "1"); Sleep 10;
                         Get (RECEITAWS_BASE_URL +:+ "1")]).
Proof. vm_compute. reflexivity. Qed.

(** ** Text: lengths, digits and padding *)

Lemma length_app_string (a b : string) :
  String.length (a +:+ b) = String.length a + String.length b.
Proof. induction a as [|c a IH]; simpl; [done | by rewrite IH]. Qed.

Lemma string_app_empty_r (a : string) : a +:+ "" = a.
Proof.
  induction a as [|c a IH]; [done |].
  change (String c (a +:+ "") = String c a). by rewrite IH.
Qed.

Lemma length_zeros (n : nat) : String.length (zeros n) = n.
Proof. induction n as [|n IH]; simpl; [done | by rewrite IH]. Qed.

Lemma all_digits_zeros_app (n : nat) (s : string) :
  all_digits (zeros n +:+ s) = all_digits s.
Proof. induction n as [|n IH]; simpl; done. Qed.

Lemma all_digits_re_sub (s : string) : all_digits (re_sub_non_digits s) = true.
Proof.
  induction s as [|c s IH]; simpl; [done |].
  destruct (is_digit c) eqn:Hc; simpl; [by rewrite Hc | done].
Qed.

Lemma space_not_digit (c : ascii) : is_space c = true → is_digit c = false.
Proof.
  destruct c as [[|] [|] [|] [|] [|] [|] [|] [|]]; vm_compute; congruence.
Qed.

Lemma digit_not_sign (c : ascii) :
  is_digit c = true → (Ascii.eqb c "+" || Ascii.eqb c "-")%bool = false.
Proof.
  intros H.
  destruct (Ascii.eqb_spec c "+") as [->|_]; [done |].
  destruct (Ascii.eqb_spec c "-") as [->|_]; done.
Qed.

Lemma re_sub_lstrip (s : string) :
  re_sub_non_digits (lstrip s) = re_sub_non_digits s.
Proof.
  induction s as [|c s IH]; simpl; [done |].
  destruct (is_space c) eqn:Hc; [| done].
  by rewrite (space_not_digit _ Hc).
Qed.

Lemma re_sub_rstrip (s : string) :
  re_sub_non_digits (rstrip s) = re_sub_non_digits s.
Proof.
  induction s as [|c s IH]; simpl; [done |].
  destruct (rstrip s) as [|c' kept] eqn:Hr.
  - rewrite <- IH. destruct (is_space c) eqn:Hc; simpl.
    + by rewrite (space_not_digit _ Hc).
    + done.
  - change (re_sub_non_digits (String c (String c' kept)))
      with (if is_digit c then String c (re_sub_non_digits (String c' kept))
            else re_sub_non_digits (String c' kept)).
    by rewrite IH.
Qed.

(** Stripping the line first does not change the digits that are kept. *)
Lemma re_sub_strip (s : string) :
  re_sub_non_digits (strip s) = re_sub_non_digits s.
Proof. unfold strip. by rewrite re_sub_rstrip, re_sub_lstrip. Qed.

(** On a string of digits [zfill] is plain left padding. *)
Lemma zfill_digits (width : nat) (s : string) :
  all_digits s = true →
  zfill width s = zeros (width - String.length s) +:+ s.
Proof.
  intros Hs. unfold zfill.
  destruct (Nat.leb_spec width (String.length s)) as [Hle|Hlt].
  - by replace (width - String.length s) with 0 by lia.
  - destruct s as [|c s]; simpl.
    + by rewrite string_app_empty_r.
    + simpl in Hs. apply andb_prop in Hs as [Hc _].
      by rewrite (digit_not_sign _ Hc).
Qed.

Lemma zfill_all_digits (width : nat) (s : string) :
  all_digits s = true → all_digits (zfill width s) = true.
Proof. intros Hs. by rewrite zfill_digits, all_digits_zeros_app. Qed.

Lemma zfill_length (width : nat) (s : string) :
  all_digits s = true →
  String.length (zfill width s) = width `max` String.length s.
Proof.
  intros Hs. rewrite zfill_digits, length_app_string, length_zeros by done. lia.
Qed.

Lemma str_truthy_length (s : string) :
  str_truthy s = true ↔ 0 < String.length s.
Proof. destruct s; simpl; split; (done || lia). Qed.

(** A line that holds a digit is not blank. *)
Lemma digits_truthy_strip (line : string) :
  str_truthy (re_sub_non_digits (strip line)) = true →
  str_truthy (strip line) = true.
Proof.
  destruct (strip line); simpl; done.
Qed.

Lemma identifier_of_shape (line : string) :
  all_digits (identifier_of line) = true ∧
  String.length (identifier_of line)
  = 14 `max` String.length (re_sub_non_digits line).
Proof.
  unfold identifier_of. rewrite re_sub_strip. split.
  - apply zfill_all_digits, all_digits_re_sub.
  - apply zfill_length, all_digits_re_sub.
Qed.

Lemma V1_formatted_cnpjs_filter (lines : list string) :
  V1.formatted_cnpjs lines
  = identifier_of <$> List.filter (λ line, str_truthy (strip line)) lines.
Proof.
  induction lines as [|line lines IH]; simpl; [done |].
  destruct (str_truthy (strip line)); simpl; by rewrite IH.
Qed.

Lemma V2_formatted_cnpjs_filter (lines : list string) :
  V2.formatted_cnpjs lines
  = identifier_of
      <$> List.filter (λ line, str_truthy (re_sub_non_digits (strip line))) lines.
Proof.
  induction lines as [|line lines IH]; simpl; [done |].
  destruct (str_truthy (re_sub_non_digits (strip line))); simpl; by rewrite IH.
Qed.

(** ** The normaliser *)

Ltac unbind := unfold mbind, result_bind in *; simpl in *.

Lemma bind_Ok {A B : Type} (f : A → result B) (a : A) : Ok a ≫= f = f a.
Proof. done. Qed.

Lemma bind_Raise {A B : Type} (f : A → result B) (e : exn) :
  Raise e ≫= f = Raise e.
Proof. done. Qed.

Lemma truthy_obj_lookup (fields : gmap string json) (key : string) (v : json) :
  fields !! key = Some v → truthy (JObj fields) = true.
Proof.
  intros Hk. simpl. apply negb_true_iff, Nat.eqb_neq.
  apply map_size_non_empty_iff. intros ->. by rewrite lookup_empty in Hk.
Qed.

Lemma chars_nil (s : string) : chars s = [] → s = "".
Proof. by destruct s. Qed.

(** A loop over a true value runs at least once. *)
Lemma iterate_truthy (v : json) (items : list json) :
  truthy v = true → iterate v = Ok items → items ≠ [].
Proof.
  destruct v as [| b | n | s | l | fields]; simpl; intros Ht Hi; try done.
  - injection Hi as <-. intros ->%chars_nil. done.
  - injection Hi as <-. by destruct l.
  - injection Hi as <-. intros Hnil.
    apply negb_true_iff, Nat.eqb_neq in Ht. apply Ht, map_size_empty_iff.
    apply map_to_list_empty_iff.
    apply fmap_nil_inv in Hnil. by apply fmap_nil_inv in Hnil.
Qed.

Lemma partner_field_shape (p : json) (key : string) :
  (∃ fields, p = JObj fields ∧ str_or_missing (fields !! key) = true) →
  dict_get p key (JStr "") ≫= str_strip = Ok (strip (field_text p key)).
Proof.
  intros (fields & -> & Hk). unbind.
  destruct (fields !! key) as [[]|]; done.
Qed.

Lemma partner_shape_fields (p : json) :
  partner_shape p = true →
  (∃ fields, p = JObj fields ∧ str_or_missing (fields !! "nome") = true) ∧
  (∃ fields, p = JObj fields ∧ str_or_missing (fields !! "qual") = true).
Proof.
  destruct p as [| | | | | fields]; simpl; try done.
  intros [H1 H2]%andb_prop. split; by exists fields.
Qed.

Lemma V1_partner_loop_shape (cnpj : string) (partners : list json)
    (acc : list (gmap string string)) :
  forallb partner_shape partners = true →
  V1.partner_loop cnpj partners acc = Ok (acc ++ (partner_record_v1 cnpj <$> partners)).
Proof.
  revert acc. induction partners as [|p ps IH]; intros acc Hs; simpl.
  - by rewrite app_nil_r.
  - simpl in Hs. apply andb_prop in Hs as [Hp Hps].
    destruct (partner_shape_fields _ Hp) as [Hn Hq].
    rewrite (partner_field_shape _ _ Hn), (partner_field_shape _ _ Hq).
    unbind. rewrite IH by done. by rewrite <- app_assoc.
Qed.

Lemma V2_socio_loop_shape (cnpj : string) (socios : list json)
    (acc : list (gmap string string)) :
  forallb partner_shape socios = true →
  V2.socio_loop cnpj socios acc = Ok (acc ++ (partner_record_v2 cnpj <$> socios)).
Proof.
  revert acc. induction socios as [|p ps IH]; intros acc Hs; simpl.
  - by rewrite app_nil_r.
  - simpl in Hs. apply andb_prop in Hs as [Hp Hps].
    destruct (partner_shape_fields _ Hp) as [Hn _].
    rewrite (partner_field_shape _ _ Hn).
    unbind. rewrite IH by done. by rewrite <- app_assoc.
Qed.

(** Whatever the entries are, a loop that ends adds one record per entry. *)
Lemma V1_partner_loop_ok (cnpj : string) (partners : list json)
    (acc rs : list (gmap string string)) :
  V1.partner_loop cnpj partners acc = Ok rs →
  ∃ new, rs = acc ++ new ∧ length new = length partners ∧
         Forall (record_v1 cnpj) new.
Proof.
  revert acc. induction partners as [|p ps IH]; intros acc H; simpl in H.
  - injection H as <-. exists []. by rewrite app_nil_r.
  - destruct (dict_get p "nome" (JStr "") ≫= str_strip) as [n|] eqn:Hn;
      [rewrite bind_Ok in H | by rewrite bind_Raise in H].
    destruct (dict_get p "qual" (JStr "") ≫= str_strip) as [q|] eqn:Hq;
      [rewrite bind_Ok in H | by rewrite bind_Raise in H].
    apply IH in H as (new & -> & Hlen & Hall).
    eexists (_ :: new). rewrite <- app_assoc. split; [done |].
    split; [simpl; by rewrite Hlen |].
    constructor; [| done]. by eexists _, _.
Qed.

Lemma V2_socio_loop_ok (cnpj : string) (socios : list json)
    (acc rs : list (gmap string string)) :
  V2.socio_loop cnpj socios acc = Ok rs →
  ∃ new, rs = acc ++ new ∧ length new = length socios ∧
         Forall (record_v2 cnpj) new.
Proof.
  revert acc. induction socios as [|p ps IH]; intros acc H; simpl in H.
  - injection H as <-. exists []. by rewrite app_nil_r.
  - destruct (dict_get p "nome" (JStr "") ≫= str_strip) as [n|] eqn:Hn;
      [rewrite bind_Ok in H | by rewrite bind_Raise in H].
    apply IH in H as (new & -> & Hlen & Hall).
    eexists (_ :: new). rewrite <- app_assoc. split; [done |].
    split; [simpl; by rewrite Hlen |].
    constructor; [| done]. by eexists.
Qed.

Lemma placeholder_record_v1 (cnpj : string) : record_v1 cnpj (V1.placeholder cnpj).
Proof. by exists "N/A", "N/A". Qed.

Lemma placeholder_record_v2 (cnpj : string) : record_v2 cnpj (placeholder_v2 cnpj).
Proof. by exists "N/A". Qed.

(** Variant 1 never answers with an empty list, and every record it
    answers with is a three-field record of the identifier. *)
Lemma V1_process_ok (cnpj : string) (api_data : option json)
    (rs : list (gmap string string)) :
  V1.process_api_response cnpj api_data = Ok rs →
  rs ≠ [] ∧ Forall (record_v1 cnpj) rs.
Proof.
  assert (Hone : [V1.placeholder cnpj] ≠ [] ∧
                 Forall (record_v1 cnpj) [V1.placeholder cnpj]).
  { split; [done |]. constructor; [apply placeholder_record_v1 | done]. }
  unfold V1.process_api_response. destruct api_data as [data|]; simpl;
    [| by intros [= <-]].
  destruct (truthy data) eqn:Ht; simpl; [| by intros [= <-]].
  destruct (dict_get data "status" JNull) as [status|] eqn:Hst;
    [rewrite bind_Ok | by rewrite bind_Raise].
  destruct (eq_str status "ERROR"); [by intros [= <-] |].
  destruct (dict_get data "qsa" (JArr [])) as [qsa|] eqn:Hq;
    [rewrite bind_Ok | by rewrite bind_Raise].
  destruct (truthy qsa) eqn:Htq; [| by intros [= <-]].
  destruct (iterate qsa) as [partners|] eqn:Hi;
    [rewrite bind_Ok | by rewrite bind_Raise].
  intros (new & -> & Hlen & Hall)%V1_partner_loop_ok. simpl. split; [| done].
  pose proof (iterate_truthy _ _ Htq Hi) as Hne.
  intros ->. by destruct partners.
Qed.

Lemma V2_process_ok (cnpj : string) (api_data : option json)
    (rs : list (gmap string string)) :
  V2.process_api_response cnpj api_data = Ok rs →
  rs ≠ [] ∧ Forall (record_v2 cnpj) rs.
Proof.
  assert (Hone : [placeholder_v2 cnpj] ≠ [] ∧
                 Forall (record_v2 cnpj) [placeholder_v2 cnpj]).
  { split; [done |]. constructor; [apply placeholder_record_v2 | done]. }
  unfold V2.process_api_response. destruct api_data as [data|]; simpl;
    [| by intros [= <-]].
  destruct (truthy data) eqn:Ht; simpl; [| by intros [= <-]].
  destruct (dict_get data "status" JNull) as [status|] eqn:Hst;
    [rewrite bind_Ok | by rewrite bind_Raise].
  destruct (eq_str status "ERROR"); [by intros [= <-] |].
  destruct (dict_get data "qsa" (JArr [])) as [qsa|] eqn:Hq;
    [rewrite bind_Ok | by rewrite bind_Raise].
  destruct (iterate qsa) as [socios|] eqn:Hi;
    [rewrite bind_Ok | by rewrite bind_Raise].
  destruct (V2.socio_loop cnpj socios []) as [socios_list|] eqn:Hl;
    [rewrite bind_Ok | by rewrite bind_Raise].
  apply V2_socio_loop_ok in Hl as (new & -> & Hlen & Hall). simpl.
  destruct new as [|r new]; [by intros [= <-] |].
  intros [= <-]. done.
Qed.

(** The first rule of the normaliser: no payload, or an error status. *)
Lemma process_error_branch (cnpj : string) (api_data : option json) :
  api_data = None ∨
  (∃ fields, api_data = Some (JObj fields) ∧
             fields !! "status" = Some (JStr "ERROR")) →
  V1.process_api_response cnpj api_data = Ok [V1.placeholder cnpj] ∧
  V2.process_api_response cnpj api_data = Ok [placeholder_v2 cnpj].
Proof.
  intros [-> | (fields & -> & Hst)]; [done |].
  unfold V1.process_api_response, V2.process_api_response.
  rewrite (truthy_obj_lookup _ _ _ Hst). simpl. by rewrite Hst.
Qed.

(** The third rule: a payload that is not an error and lists partners. *)
Lemma process_partner_branch (cnpj : string) (fields : gmap string json)
    (partners : list json) :
  fields !! "qsa" = Some (JArr partners) →
  partners ≠ [] →
  forallb partner_shape partners = true →
  eq_str (default JNull (fields !! "status")) "ERROR" = false →
  V1.process_api_response cnpj (Some (JObj fields))
  = Ok (partner_record_v1 cnpj <$> partners) ∧
  V2.process_api_response cnpj (Some (JObj fields))
  = Ok (partner_record_v2 cnpj <$> partners).
Proof.
  intros Hq Hne Hs Hst.
  unfold V1.process_api_response, V2.process_api_response.
  rewrite (truthy_obj_lookup _ _ _ Hq). simpl. rewrite Hq.
  assert (Hst' : eq_str match fields !! "status" with
                            | Some v => v
                            | None => JNull
                            end "ERROR" = false)
    by (by destruct (fields !! "status")).
  rewrite Hst'.
  destruct partners as [|p ps]; [done |].
  change (truthy (JArr (p :: ps))) with true. cbv iota.
  change (iterate (JArr (p :: ps))) with (Ok (p :: ps)).
  rewrite !bind_Ok, V1_partner_loop_shape, V2_socio_loop_shape by done.
  by rewrite bind_Ok.
Qed.

(** The second rule: a payload that is not an error and lists no partner. *)
Lemma process_no_partner_branch (cnpj : string) (fields : gmap string json) :
  fields !! "qsa" = None ∨ fields !! "qsa" = Some (JArr []) →
  V1.process_api_response cnpj (Some (JObj fields)) = Ok [V1.placeholder cnpj] ∧
  V2.process_api_response cnpj (Some (JObj fields)) = Ok [placeholder_v2 cnpj].
Proof.
  intros Hq.
  unfold V1.process_api_response, V2.process_api_response.
  destruct (truthy (JObj fields)); simpl; [| done].
  destruct (eq_str _ "ERROR"); [done |].
  destruct Hq as [-> | ->]; done.
Qed.

Ltac answered := intros; split; eexists; reflexivity.

(** On a payload of the service's shape neither normaliser raises. *)
Lemma process_shape_total (cnpj : string) (api_data : option json) :
  api_data_shape api_data = true →
  (∃ rs, V1.process_api_response cnpj api_data = Ok rs) ∧
  (∃ rs, V2.process_api_response cnpj api_data = Ok rs).
Proof.
  destruct api_data as [data|]; [| answered].
  destruct data as [| | | | | fields]; try done.
  intros Hs. simpl in Hs.
  destruct (decide (eq_str (default JNull (fields !! "status")) "ERROR" = true))
    as [Herr|Hok].
  - clear Hs. unfold V1.process_api_response, V2.process_api_response.
    simpl. destruct (size fields =? 0)%nat; simpl; [answered |].
    assert (Herr' : eq_str match fields !! "status" with
                               | Some v => v
                               | None => JNull
                               end "ERROR" = true)
      by (by destruct (fields !! "status")).
    rewrite Herr'. answered.
  - apply not_true_is_false in Hok.
    destruct (fields !! "qsa") as [qsa|] eqn:Hq.
    + destruct qsa as [| | | | partners |]; try done.
      destruct partners as [|p ps].
      * destruct (process_no_partner_branch cnpj fields) as [-> ->];
          [by right | answered].
      * destruct (process_partner_branch cnpj fields (p :: ps)) as [-> ->];
          try done. answered.
    + destruct (process_no_partner_branch cnpj fields) as [-> ->];
        [by left | answered].
Qed.

(** ** The retrying client *)

Section Client.

Variable env : endpoint.
Variable url : string.

Lemma V1_attempt_loop_cons (attempt_number : nat) (later : list nat)
    (backoff_factor : Z) (w : world) :
  V1.attempt_loop env url (attempt_number :: later) backoff_factor w
  = let w1 := (session_get env url w).2 in
    let except_RequestException :=
      if (attempt_number <? MAX_API_RETRIES)%nat then
        V1.attempt_loop env url later (backoff_factor * 2)
          (time_sleep (backoff_factor * 2) w1)
      else (None, w1) in
    match env (requests w) url with
    | RequestFailed => except_RequestException
    | Response status_code body =>
        if (status_code =? 429)%Z then
          V1.attempt_loop env url later (backoff_factor * 2)
            (time_sleep (backoff_factor * 5) w1)
        else if raise_for_status status_code then except_RequestException
        else (Some body, w1)
    end.
Proof. reflexivity. Qed.

(** A 429 sleeps for five times the factor, doubles the factor and moves on
    to the next attempt number. *)
Lemma V1_too_many_requests_step (attempt_number : nat) (later : list nat)
    (backoff_factor : Z) (w : world) (body : json) :
  env (requests w) url = Response 429 body →
  V1.attempt_loop env url (attempt_number :: later) backoff_factor w
  = V1.attempt_loop env url later (backoff_factor * 2)
      (time_sleep (backoff_factor * 5) (session_get env url w).2).
Proof. intros H. by rewrite V1_attempt_loop_cons, H. Qed.

(** A response that is neither a 429 nor an error status ends the loop. *)
Lemma V1_success_step (attempt_number : nat) (later : list nat)
    (backoff_factor : Z) (w : world) (status_code : Z) (body : json) :
  env (requests w) url = Response status_code body →
  failed (Response status_code body) = false →
  V1.attempt_loop env url (attempt_number :: later) backoff_factor w
  = (Some body, (session_get env url w).2).
Proof.
  intros H [H1 H2]%orb_false_elim.
  rewrite V1_attempt_loop_cons, H. simpl. by rewrite H1, H2.
Qed.

(** When the attempts that are left all fail, the loop gives up after
    having used every one of them. *)
Lemma V1_attempts_exhausted (n a : nat) (backoff_factor : Z) (w : world) :
  a + n = S MAX_API_RETRIES →
  (∀ k, k < n → failed (env (k + requests w) url) = true) →
  ∃ w', V1.attempt_loop env url (seq a n) backoff_factor w = (None, w') ∧
        requests w' = n + requests w.
Proof.
  revert a backoff_factor w.
  induction n as [|n IH]; intros a b w Ha Hfail; [by eexists |].
  rewrite <- cons_seq, V1_attempt_loop_cons. cbv zeta.
  pose proof (Hfail 0 ltac:(lia)) as H0. simpl in H0.
  assert (Hrest : ∀ b' secs,
    ∃ w', V1.attempt_loop env url (seq (S a) n) b'
            (time_sleep secs (session_get env url w).2) = (None, w') ∧
          requests w' = S n + requests w).
  { intros b' secs.
    destruct (IH (S a) b' (time_sleep secs (session_get env url w).2))
      as (w' & Hw' & Hreq); [lia | |].
    - intros k Hk. simpl. replace (k + S (requests w)) with (S k + requests w)
        by lia. apply Hfail. lia.
    - exists w'. split; [done |]. rewrite Hreq. simpl. lia. }
  assert (Hexc : ∃ w',
    (if (a <? MAX_API_RETRIES)%nat
     then V1.attempt_loop env url (seq (S a) n) (b * 2)
            (time_sleep (b * 2) (session_get env url w).2)
     else (None, (session_get env url w).2)) = (None, w') ∧
    requests w' = S n + requests w).
  { destruct (Nat.ltb_spec a MAX_API_RETRIES) as [Hlt|Hge]; [apply Hrest |].
    eexists. split; [done |]. simpl. unfold MAX_API_RETRIES in *. lia. }
  destruct (env (requests w) url) as [|status_code body]; [done |].
  simpl in H0. destruct (status_code =? 429)%Z; [apply Hrest |].
  simpl in H0. by rewrite H0.
Qed.

(** On the attempt numbers of [range(1, MAX_API_RETRIES + 1)] the loops of
    the two variants are the same function. *)
Lemma V2_attempt_loop_eq (n a : nat) (backoff : Z) (w : world) :
  a + n = S MAX_API_RETRIES →
  V2.attempt_loop env url (seq a n) backoff w
  = V1.attempt_loop env url (seq a n) backoff w.
Proof.
  revert a backoff w. induction n as [|n IH]; intros a b w Ha; [done |].
  rewrite <- cons_seq, V1_attempt_loop_cons. simpl.
  assert (Hexc :
    (if (a <? MAX_API_RETRIES)%nat
     then V2.attempt_loop env url (seq (S a) n) (b * 2)
            (time_sleep (b * 2) (session_get env url w).2)
     else V2.attempt_loop env url (seq (S a) n) b (session_get env url w).2)
    = (if (a <? MAX_API_RETRIES)%nat
       then V1.attempt_loop env url (seq (S a) n) (b * 2)
              (time_sleep (b * 2) (session_get env url w).2)
       else (None, (session_get env url w).2))).
  { destruct (Nat.ltb_spec a MAX_API_RETRIES) as [Hlt|Hge].
    - apply IH. lia.
    - unfold MAX_API_RETRIES in *. by replace n with 0 by lia. }
  destruct (env (requests w) url) as [|status_code body]; [apply Hexc |].
  destruct (status_code =? 429)%Z; [apply IH; lia |].
  destruct (raise_for_status status_code); [apply Hexc | done].
Qed.

End Client.

Lemma V2_query_eq (env : endpoint) (cnpj : string) (w : world) :
  V2.query_receitaws_api env cnpj w = V1.query_receitaws_api env cnpj w.
Proof. by apply V2_attempt_loop_eq. Qed.

(** The client hands back a body that the endpoint sent, or nothing. *)
Lemma V1_attempt_loop_body (env : endpoint) (url : string) (attempts : list nat)
    (backoff_factor : Z) (w w' : world) (body : json) :
  V1.attempt_loop env url attempts backoff_factor w = (Some body, w') →
  ∃ k status_code, env k url = Response status_code body.
Proof.
  revert backoff_factor w.
  induction attempts as [|a later IH]; intros b w; [done |].
  rewrite V1_attempt_loop_cons. cbv zeta.
  assert (Hexc :
    (if (a <? MAX_API_RETRIES)%nat
     then V1.attempt_loop env url later (b * 2)
            (time_sleep (b * 2) (session_get env url w).2)
     else (None, (session_get env url w).2)) = (Some body, w') →
    ∃ k status_code, env k url = Response status_code body).
  { destruct (a <? MAX_API_RETRIES)%nat; [apply IH | done]. }
  destruct (env (requests w) url) as [|status_code body0] eqn:He; [done |].
  destruct (status_code =? 429)%Z; [apply IH |].
  destruct (raise_for_status status_code); [done |].
  intros [= -> <-]. eauto.
Qed.

(** ** The batch drivers *)

Lemma V1_query_shape (env : endpoint) (cnpj : string) (w : world) :
  env_shape env → api_data_shape (V1.query_receitaws_api env cnpj w).1 = true.
Proof.
  intros Henv. destruct (V1.query_receitaws_api env cnpj w) as [[body|] w'] eqn:Hq;
    [| done].
  apply V1_attempt_loop_body in Hq as (k & status_code & Hk).
  specialize (Henv k (RECEITAWS_BASE_URL +:+ cnpj)). by rewrite Hk in Henv.
Qed.

Lemma record_v1_lookup (cnpj : string) (r : gmap string string) :
  record_v1 cnpj r →
  r !! "cnpj" = Some cnpj ∧
  dom r = list_to_set V1.csv_field_names ∧
  dict_to_list V1.csv_field_names r = Ok [cnpj; nome_of r; default "" (r !! "qualificacao_qsa")].
Proof.
  intros (nome & qual & ->).
  assert (Hdom : dom ({[ "cnpj" := cnpj; "nome_qsa" := nome;
                         "qualificacao_qsa" := qual ]} : gmap string string)
                 = list_to_set V1.csv_field_names).
  { unfold V1.csv_field_names. set_solver. }
  split; [by simplify_map_eq |]. split; [done |].
  unfold dict_to_list. rewrite Hdom, bool_decide_true by done.
  unfold nome_of. by simplify_map_eq.
Qed.

Lemma record_v2_lookup (cnpj : string) (r : gmap string string) :
  record_v2 cnpj r → r !! "cnpj" = Some cnpj ∧ r !! "nome_qsa" = Some (nome_of r).
Proof. intros (nome & ->). unfold nome_of. by simplify_map_eq. Qed.

(** The driver of variant 1 turns each identifier, in order, into a
    non-empty group of records of that identifier. *)
Lemma V1_batch_loop_groups (env : endpoint) (cnpjs : list string)
    (acc : list (gmap string string)) (w : world) :
  env_shape env →
  ∃ groups w',
    V1.batch_loop env cnpjs acc w = (Ok (acc ++ concat groups), w') ∧
    Forall2 (λ c g, g ≠ [] ∧ Forall (record_v1 c) g) cnpjs groups.
Proof.
  intros Henv. revert acc w.
  induction cnpjs as [|c cnpjs IH]; intros acc w; simpl.
  - exists [], w. by rewrite app_nil_r.
  - pose proof (V1_query_shape env c (pacing_wait w) Henv) as Hshape.
    destruct (V1.query_receitaws_api env c (pacing_wait w)) as [api_data w1].
    destruct (process_shape_total c api_data Hshape) as [[rs Hrs] _].
    rewrite Hrs. destruct (V1_process_ok _ _ _ Hrs) as [Hne Hall].
    destruct (IH (acc ++ rs) w1) as (groups & w' & -> & Hgroups).
    exists (rs :: groups), w'. simpl. rewrite app_assoc. by split; [| constructor].
Qed.

Lemma group_identifiers (c : string) (g : list (gmap string string)) :
  g ≠ [] → Forall (record_v1 c) g →
  list_to_set (cnpj_of <$> g) = ({[ c ]} : gset string).
Proof.
  intros Hne Hall. induction Hall as [|r g Hr Hall IH]; [done |].
  destruct (record_v1_lookup _ _ Hr) as [Hc _].
  rewrite fmap_cons, list_to_set_cons. unfold cnpj_of at 1. rewrite Hc. simpl.
  destruct g as [|r' g]; [apply union_empty_r_L |].
  rewrite IH by done. apply union_idemp_L.
Qed.

Lemma groups_identifiers (cnpjs : list string)
    (groups : list (list (gmap string string))) :
  Forall2 (λ c g, g ≠ [] ∧ Forall (record_v1 c) g) cnpjs groups →
  list_to_set (cnpj_of <$> concat groups) = (list_to_set cnpjs : gset string).
Proof.
  induction 1 as [|c g cnpjs groups [Hne Hall] Hrest IH]; [done |].
  simpl. rewrite fmap_app, list_to_set_app_L, IH.
  by rewrite (group_identifiers c g).
Qed.

Lemma groups_records (cnpjs : list string)
    (groups : list (list (gmap string string))) :
  Forall2 (λ c g, g ≠ [] ∧ Forall (record_v1 c) g) cnpjs groups →
  Forall (λ r, ∃ c, record_v1 c r) (concat groups) ∧
  (cnpjs ≠ [] → concat groups ≠ []).
Proof.
  induction 1 as [|c g cnpjs groups [Hne Hall] Hrest [IH IHne]]; [done |].
  simpl. split.
  - apply Forall_app. split; [| done].
    eapply Forall_impl; [exact Hall |]. intros r Hr. by exists c.
  - intros _. by destruct g.
Qed.

(** The writer accepts every record of variant 1 and fills every cell. *)
Lemma writerows_records (rows : list (gmap string string)) :
  Forall (λ r, ∃ c, record_v1 c r) rows →
  ∃ table, writerows V1.csv_field_names rows = Ok table ∧
           omap head table = cnpj_of <$> rows.
Proof.
  induction 1 as [|r rows [c Hr] Hrest (table & Ht & Hh)]; [by exists [] |].
  destruct (record_v1_lookup _ _ Hr) as (Hc & _ & Hcells).
  eexists (_ :: table). unfold writerows in *. simpl.
  rewrite Hcells, bind_Ok, Ht, bind_Ok. split; [done |].
  simpl. f_equal; [| exact Hh]. unfold cnpj_of. by rewrite Hc.
Qed.

Lemma size_list_to_set_le (l : list string) :
  (size (list_to_set l : gset string) ≤ length l)%nat.
Proof.
  induction l as [|x l IH]; [vm_compute; lia |].
  rewrite list_to_set_cons, size_union_alt, size_singleton. simpl length.
  assert (Hsub : list_to_set l ∖ {[x]} ⊆ (list_to_set l : gset string))
    by (by apply subseteq_difference_l).
  apply subseteq_size in Hsub. lia.
Qed.

Lemma V1_main_identifiers (env : endpoint) (file : option string) (w : world) :
  env_shape env →
  ∃ table w',
    V1.main env file w = (Ok table, w') ∧
    identifiers_in table = list_to_set (V1.load_and_clean_cnpjs file).
Proof.
  intros Henv. unfold V1.main.
  destruct (V1.load_and_clean_cnpjs file) as [|c cnpjs] eqn:Hload;
    [by exists None, w |].
  destruct (V1_batch_loop_groups env (c :: cnpjs) [] w Henv)
    as (groups & w' & Hrun & Hgroups).
  rewrite Hrun. simpl.
  destruct (groups_records _ _ Hgroups) as [Hrecs Hne].
  destruct (writerows_records _ Hrecs) as (table & Htable & Hheads).
  destruct (concat groups) as [|r rows] eqn:Hrows; [by destruct Hne |].
  rewrite Htable. exists (Some (V1.csv_field_names :: table)), w'.
  split; [done |]. simpl identifiers_in. rewrite Hheads, <- Hrows.
  by rewrite (groups_identifiers _ _ Hgroups).
Qed.

Lemma or_empty_dict_obj (api_data : option json) :
  api_data_shape api_data = true → ∃ fields, V2.or_empty_dict api_data = JObj fields.
Proof.
  destruct api_data as [[| | | | | fields]|]; try done; intros _; simpl.
  - destruct (size fields =? 0)%nat; simpl; by eexists.
  - by eexists.
Qed.

Lemma traverse_cons {A B : Type} (f : A → result B) (x : A) (l : list A) :
  traverse f (x :: l) = y ← f x; ys ← traverse f l; Ok (y :: ys).
Proof. done. Qed.

Lemma traverse_nome_qsa (cnpj : string) (socios : list (gmap string string)) :
  Forall (record_v2 cnpj) socios →
  traverse (λ s, subscript s "nome_qsa") socios = Ok (nome_of <$> socios).
Proof.
  induction 1 as [|s socios Hs Hrest IH]; [done |].
  destruct (record_v2_lookup _ _ Hs) as [_ Hn].
  rewrite traverse_cons, IH. unfold subscript. by rewrite Hn.
Qed.

(** One pass of the loop body of variant 2 builds one row, whose [dono]
    joins the names that the normaliser answered. *)
Lemma V2_detailed_row_shape (google : json → string) (cnpj : string)
    (api_data : option json) :
  api_data_shape api_data = true →
  ∃ row socios,
    V2.detailed_row google cnpj api_data = Ok row ∧
    V2.process_api_response cnpj api_data = Ok socios ∧
    row !! "cnpj" = Some (JStr cnpj) ∧
    row !! "dono" = Some (JStr (join "/" (nome_of <$> socios))).
Proof.
  intros Hshape.
  destruct (or_empty_dict_obj _ Hshape) as [fields Hobj].
  destruct (process_shape_total cnpj api_data Hshape) as [_ [socios Hsocios]].
  destruct (V2_process_ok _ _ _ Hsocios) as [_ Hall].
  unfold V2.detailed_row, V2.extract_company_details.
  rewrite Hobj. unfold dict_get. rewrite !bind_Ok, Hsocios, bind_Ok.
  rewrite (traverse_nome_qsa _ _ Hall), bind_Ok.
  unfold subscript at 1. rewrite lookup_insert_eq, bind_Ok.
  eexists _, socios. split; [done |]. split; [done |].
  by simplify_map_eq.
Qed.

Lemma V2_batch_loop_rows (google : json → string) (env : endpoint)
    (cnpjs : list string) (acc : list (gmap string json)) (w : world) :
  env_shape env →
  ∃ rows w',
    V2.batch_loop google env cnpjs acc w = (Ok (acc ++ rows), w') ∧
    Forall2 (λ c row,
               row !! "cnpj" = Some (JStr c) ∧
               ∃ w1 socios,
                 V2.process_api_response c (V2.query_receitaws_api env c w1).1
                 = Ok socios ∧
                 row !! "dono" = Some (JStr (join "/" (nome_of <$> socios))))
            cnpjs rows.
Proof.
  intros Henv. revert acc w.
  induction cnpjs as [|c cnpjs IH]; intros acc w; simpl.
  - exists [], w. by rewrite app_nil_r.
  - pose proof (V1_query_shape env c (pacing_wait w) Henv) as Hshape.
    rewrite <- V2_query_eq in Hshape.
    destruct (V2.query_receitaws_api env c (pacing_wait w))
      as [api_data w1] eqn:Hq.
    destruct (V2_detailed_row_shape google c api_data Hshape)
      as (row & socios & -> & Hsocios & Hc & Hd).
    destruct (IH (acc ++ [row]) w1) as (rows & w' & -> & Hrows).
    exists (row :: rows), w'. rewrite <- app_assoc. split; [done |].
    constructor; [| done]. split; [done |].
    exists (pacing_wait w), socios. by rewrite Hq.
Qed.

(** ** The claims *)

(** Runs one pass of the retry loop on the response recorded in [H]. *)
Ltac next_attempt H :=
  rewrite V1_attempt_loop_cons; cbv zeta; simpl (requests _);
  rewrite H; simpl (_ =? 429)%Z; cbv iota.

(** C1, as the code has it.  A 429 makes the client sleep five times the
    backoff factor, which starts at 1 and doubles, and then go on with the
    next attempt number: the 429 uses up one of the five attempts.  When the
    endpoint answers 429 twice and then succeeds, the client sleeps 5 and
    then 10 and returns the payload of the third request; when it answers
    429 five times, the client gives up after sleeps of 5, 10, 20, 40 and
    80.  Both variants behave alike. *)
Theorem too_many_requests_backoff (env : endpoint) (cnpj : string) (w : world) :
  let url := RECEITAWS_BASE_URL +:+ cnpj in
  (∀ attempt_number later backoff_factor body,
     env (requests w) url = Response 429 body →
     V1.attempt_loop env url (attempt_number :: later) backoff_factor w
     = V1.attempt_loop env url later (backoff_factor * 2)
         (time_sleep (backoff_factor * 5) (session_get env url w).2)) ∧
  (∀ b1 b2 status_code payload,
     env (requests w) url = Response 429 b1 →
     env (1 + requests w) url = Response 429 b2 →
     env (2 + requests w) url = Response status_code payload →
     failed (Response status_code payload) = false →
     V1.query_receitaws_api env cnpj w
     = (Some payload,
        World (3 + requests w)
          (trace w ++ [Get url; Sleep 5; Get url; Sleep 10; Get url]))) ∧
  ((∀ k, k < 5 → ∃ body, env (k + requests w) url = Response 429 body) →
     V1.query_receitaws_api env cnpj w
     = (None,
        World (5 + requests w)
          (trace w ++ [Get url; Sleep 5; Get url; Sleep 10; Get url; Sleep 20;
                       Get url; Sleep 40; Get url; Sleep 80]))) ∧
  V2.query_receitaws_api env cnpj w = V1.query_receitaws_api env cnpj w.
Proof.
  intros url. split; [| split; [| split]].
  - intros a later b body H.
    exact (V1_too_many_requests_step env url a later b w body H).
  - intros b1 b2 status_code payload H0 H1 H2 Hok.
    apply orb_false_elim in Hok as [Hn429 Hstatus]. simpl in H1, H2.
    unfold V1.query_receitaws_api. fold url. simpl seq.
    next_attempt H0. next_attempt H1. next_attempt H2.
    rewrite Hn429, Hstatus.
    unfold session_get, time_sleep. simpl. by rewrite <- !app_assoc.
  - intros H.
    destruct (H 0 ltac:(lia)) as [c0 H0], (H 1 ltac:(lia)) as [c1 H1],
      (H 2 ltac:(lia)) as [c2 H2], (H 3 ltac:(lia)) as [c3 H3],
      (H 4 ltac:(lia)) as [c4 H4].
    simpl in H0, H1, H2, H3, H4.
    unfold V1.query_receitaws_api. fold url. simpl seq.
    next_attempt H0. next_attempt H1. next_attempt H2. next_attempt H3.
    next_attempt H4.
    unfold session_get, time_sleep. simpl. by rewrite <- !app_assoc.
  - apply V2_query_eq.
Qed.

Lemma too_many_requests_backoff_witness :
  V1.query_receitaws_api too_many_twice sample_cnpj fresh
  = (Some acme,
     World 3 [Get sample_url; Sleep 5; Get sample_url; Sleep 10; Get sample_url]) ∧
  V1.query_receitaws_api too_many_five_times sample_cnpj fresh
  = (None,
     World 5 [Get sample_url; Sleep 5; Get sample_url; Sleep 10; Get sample_url;
              Sleep 20; Get sample_url; Sleep 40; Get sample_url; Sleep 80]).
Proof.
  split.
  - apply (proj1 (proj2 (too_many_requests_backoff too_many_twice sample_cnpj fresh))
             JNull JNull 200%Z acme); reflexivity.
  - apply (proj1 (proj2 (proj2
             (too_many_requests_backoff too_many_five_times sample_cnpj fresh)))).
    intros k Hk. exists JNull.
    do 5 (destruct k as [|k]; [reflexivity |]). lia.
Defined.

(** C1 as stated fails: five 429 answers use up the five attempts, and the
    client gives up without sending the sixth request, which would have
    succeeded; retrying the same attempt slot would have reached it. *)
Lemma too_many_requests_consumes_attempts :
  V1.query_receitaws_api too_many_five_times sample_cnpj fresh
  = (None,
     World 5 [Get sample_url; Sleep 5; Get sample_url; Sleep 10; Get sample_url;
              Sleep 20; Get sample_url; Sleep 40; Get sample_url; Sleep 80]) ∧
  (query_same_slot 6 too_many_five_times sample_cnpj fresh).1 = Some acme ∧
  V1.query_receitaws_api too_many_five_times sample_cnpj fresh
  ≠ query_same_slot 6 too_many_five_times sample_cnpj fresh.
Proof.
  assert (H1 : V1.query_receitaws_api too_many_five_times sample_cnpj fresh
               = (None,
                  World 5 [Get sample_url; Sleep 5; Get sample_url; Sleep 10;
                           Get sample_url; Sleep 20; Get sample_url; Sleep 40;
                           Get sample_url; Sleep 80]))
    by (vm_compute; reflexivity).
  assert (H2 : (query_same_slot 6 too_many_five_times sample_cnpj fresh).1
               = Some acme) by (vm_compute; reflexivity).
  split; [exact H1 |]. split; [exact H2 |].
  intros Heq. rewrite <- Heq, H1 in H2. discriminate H2.
Qed.

(** C6.  When each of the five attempts fails (a raised request error, an
    error status or a 429), the client returns nothing after five requests,
    the normaliser turns that into the placeholder record of the identifier,
    and the driver goes on with the identifiers that are left. *)
Theorem exhausted_attempts_give_placeholder (env : endpoint) (cnpj : string)
    (w : world) (more : list string) (acc : list (gmap string string)) :
  (∀ k, k < MAX_API_RETRIES →
        failed (env (k + requests w) (RECEITAWS_BASE_URL +:+ cnpj)) = true) →
  ∃ w',
    V1.query_receitaws_api env cnpj (pacing_wait w) = (None, w') ∧
    V2.query_receitaws_api env cnpj (pacing_wait w) = (None, w') ∧
    requests w' = MAX_API_RETRIES + requests w ∧
    V1.process_api_response cnpj None = Ok [V1.placeholder cnpj] ∧
    V1.batch_loop env (cnpj :: more) acc w
    = V1.batch_loop env more (acc ++ [V1.placeholder cnpj]) w'.
Proof.
  intros Hfail.
  destruct (V1_attempts_exhausted env (RECEITAWS_BASE_URL +:+ cnpj)
              MAX_API_RETRIES 1 1 (pacing_wait w)) as (w' & Hq & Hreq);
    [done | exact Hfail |].
  exists w'. rewrite (V2_query_eq env cnpj (pacing_wait w)).
  unfold V1.query_receitaws_api.
  split; [exact Hq |]. split; [exact Hq |]. split; [exact Hreq |].
  split; [done |].
  simpl V1.batch_loop. unfold V1.query_receitaws_api. by rewrite Hq.
Qed.

Lemma exhausted_attempts_give_placeholder_witness :
  ∃ w',
    V1.query_receitaws_api always_down sample_cnpj (pacing_wait fresh) = (None, w') ∧
    V2.query_receitaws_api always_down sample_cnpj (pacing_wait fresh) = (None, w') ∧
    requests w' = 5 ∧
    V1.process_api_response sample_cnpj None = Ok [V1.placeholder sample_cnpj] ∧
    V1.batch_loop always_down [sample_cnpj; "00000000000191"] [] fresh
    = V1.batch_loop always_down ["00000000000191"] [V1.placeholder sample_cnpj] w'.
Proof.
  apply (exhausted_attempts_give_placeholder always_down sample_cnpj fresh
           ["00000000000191"] []).
  intros k Hk. reflexivity.
Defined.

(** C4.  With no payload, or with a payload whose status is ["ERROR"], each
    normaliser answers exactly one record, the placeholder record of the
    identifier, whose extracted fields all read ["N/A"]; and a response
    that carries such a payload under a status that is not an error is
    returned by the client at once: one request, no sleep, no retry. *)
Theorem error_status_single_placeholder (cnpj : string) (api_data : option json) :
  api_data = None ∨
  (∃ fields, api_data = Some (JObj fields) ∧
             fields !! "status" = Some (JStr "ERROR")) →
  V1.process_api_response cnpj api_data
  = Ok [ {[ "cnpj" := cnpj; "nome_qsa" := "N/A"; "qualificacao_qsa" := "N/A" ]} ] ∧
  V2.process_api_response cnpj api_data
  = Ok [ {[ "cnpj" := cnpj; "nome_qsa" := "N/A" ]} ] ∧
  ∀ env w status_code data,
    api_data = Some data →
    env (requests w) (RECEITAWS_BASE_URL +:+ cnpj) = Response status_code data →
    failed (Response status_code data) = false →
    let answered :=
      (api_data,
       World (S (requests w)) (trace w ++ [Get (RECEITAWS_BASE_URL +:+ cnpj)])) in
    V1.query_receitaws_api env cnpj w = answered ∧
    V2.query_receitaws_api env cnpj w = answered.
Proof.
  intros H. destruct (process_error_branch cnpj api_data H) as [H1 H2].
  split; [exact H1 |]. split; [exact H2 |].
  intros env w status_code data -> Hresp Hok answered.
  rewrite (V2_query_eq env cnpj w). unfold V1.query_receitaws_api. simpl seq.
  by rewrite (V1_success_step _ _ _ _ _ _ _ _ Hresp Hok).
Qed.

Lemma error_status_single_placeholder_witness :
  V1.process_api_response sample_cnpj (Some api_error)
  = Ok [ {[ "cnpj" := sample_cnpj; "nome_qsa" := "N/A";
            "qualificacao_qsa" := "N/A" ]} ] ∧
  V1.query_receitaws_api (λ _ _, Response 200 api_error) sample_cnpj fresh
  = (Some api_error, World 1 [Get sample_url]).
Proof.
  destruct (error_status_single_placeholder sample_cnpj (Some api_error))
    as (H1 & _ & H3).
  - right. eexists. split; reflexivity.
  - split; [exact H1 |].
    apply (H3 (λ _ _, Response 200 api_error) fresh 200%Z api_error);
      reflexivity.
Defined.

(** C2.  On every optional payload of the service's shape (absent, error
    status, no partner list, empty partner list, partners) each normaliser
    answers a non-empty list of records, all of them records of the
    identifier it was called with; and on no input at all does a
    normaliser answer an empty list. *)
Theorem normaliser_never_empty (cnpj : string) (api_data : option json) :
  (api_data_shape api_data = true →
   (∃ rs, V1.process_api_response cnpj api_data = Ok rs ∧ rs ≠ [] ∧
          Forall (λ r, r !! "cnpj" = Some cnpj) rs) ∧
   (∃ rs, V2.process_api_response cnpj api_data = Ok rs ∧ rs ≠ [] ∧
          Forall (λ r, r !! "cnpj" = Some cnpj) rs)) ∧
  V1.process_api_response cnpj api_data ≠ Ok [] ∧
  V2.process_api_response cnpj api_data ≠ Ok [].
Proof.
  split; [| split].
  - intros Hshape.
    destruct (process_shape_total cnpj api_data Hshape) as [[rs1 H1] [rs2 H2]].
    destruct (V1_process_ok _ _ _ H1) as [Hne1 Hall1].
    destruct (V2_process_ok _ _ _ H2) as [Hne2 Hall2].
    split; [exists rs1 | exists rs2]; (split; [done |]); (split; [done |]).
    + eapply Forall_impl; [exact Hall1 |]. intros r Hr.
      by destruct (record_v1_lookup _ _ Hr).
    + eapply Forall_impl; [exact Hall2 |]. intros r Hr.
      by destruct (record_v2_lookup _ _ Hr).
  - intros H. by destruct (V1_process_ok _ _ _ H).
  - intros H. by destruct (V2_process_ok _ _ _ H).
Qed.

Lemma normaliser_never_empty_witness :
  (∃ rs, V1.process_api_response sample_cnpj (Some two_partners) = Ok rs ∧
         rs ≠ [] ∧ Forall (λ r, r !! "cnpj" = Some sample_cnpj) rs) ∧
  (∃ rs, V2.process_api_response sample_cnpj (Some two_partners) = Ok rs ∧
         rs ≠ [] ∧ Forall (λ r, r !! "cnpj" = Some sample_cnpj) rs).
Proof.
  apply (proj1 (normaliser_never_empty sample_cnpj (Some two_partners))).
  reflexivity.
Defined.

(** C5, as the code has it.  For a payload of the service's shape whose
    status is not ["ERROR"] and which lists N partners (N >= 1), each
    normaliser answers exactly N records of the identifier, one per partner
    in payload order.  The record of variant 1 carries the partner's
    trimmed name and role, each replaced by ["N/A"] when nothing is left of
    it after trimming; the record of variant 2 carries the name only. *)
Theorem one_record_per_partner (cnpj : string) (fields : gmap string json)
    (partners : list json) :
  fields !! "qsa" = Some (JArr partners) →
  partners ≠ [] →
  forallb partner_shape partners = true →
  eq_str (default JNull (fields !! "status")) "ERROR" = false →
  ∃ rs1 rs2,
    V1.process_api_response cnpj (Some (JObj fields)) = Ok rs1 ∧
    V2.process_api_response cnpj (Some (JObj fields)) = Ok rs2 ∧
    length rs1 = length partners ∧
    length rs2 = length partners ∧
    ∀ i p, partners !! i = Some p →
      rs1 !! i = Some {[ "cnpj" := cnpj;
                         "nome_qsa" := or_placeholder (field_text p "nome");
                         "qualificacao_qsa" := or_placeholder (field_text p "qual") ]} ∧
      rs2 !! i = Some {[ "cnpj" := cnpj;
                         "nome_qsa" := or_placeholder (field_text p "nome") ]}.
Proof.
  intros Hq Hne Hs Hst.
  destruct (process_partner_branch cnpj fields partners Hq Hne Hs Hst) as [H1 H2].
  eexists _, _. split; [exact H1 |]. split; [exact H2 |].
  rewrite !length_fmap. split; [done |]. split; [done |].
  intros i p Hi. rewrite !list_lookup_fmap, Hi. done.
Qed.

Lemma one_record_per_partner_witness :
  ∃ rs1 rs2,
    V1.process_api_response sample_cnpj (Some acme) = Ok rs1 ∧
    V2.process_api_response sample_cnpj (Some acme) = Ok rs2 ∧
    length rs1 = 1 ∧ length rs2 = 1 ∧
    ∀ i p, [JObj {[ "nome" := JStr "  "; "qual" := JStr "Owner" ]}] !! i = Some p →
      rs1 !! i = Some {[ "cnpj" := sample_cnpj;
                         "nome_qsa" := or_placeholder (field_text p "nome");
                         "qualificacao_qsa" := or_placeholder (field_text p "qual") ]} ∧
      rs2 !! i = Some {[ "cnpj" := sample_cnpj;
                         "nome_qsa" := or_placeholder (field_text p "nome") ]}.
Proof.
  apply (one_record_per_partner sample_cnpj
           {[ "status" := JStr "OK"; "nome" := JStr "ACME";
              "qsa" := JArr [ JObj {[ "nome" := JStr "  "; "qual" := JStr "Owner" ]} ] ]}
           [JObj {[ "nome" := JStr "  "; "qual" := JStr "Owner" ]}]);
    [vm_compute; reflexivity | discriminate | reflexivity | vm_compute; reflexivity].
Defined.

(** C5 as stated fails: a payload with an error status and one partner
    yields the placeholder record, not a record of the partner; and the
    records of variant 2 have no field for the partner's role. *)
Lemma partners_under_error_status :
  V1.process_api_response sample_cnpj (Some error_with_partner)
  = Ok [ {[ "cnpj" := sample_cnpj; "nome_qsa" := "N/A";
            "qualificacao_qsa" := "N/A" ]} ] ∧
  V2.process_api_response sample_cnpj (Some two_partners)
  = Ok [ {[ "cnpj" := sample_cnpj; "nome_qsa" := "ANA" ]};
         {[ "cnpj" := sample_cnpj; "nome_qsa" := "N/A" ]} ].
Proof. split; vm_compute; reflexivity. Qed.

(** C10.  Every record that the normaliser of variant 1 answers has
    exactly the keys [cnpj], [nome_qsa] and [qualificacao_qsa], which are
    the column names of the writer; its [cnpj] is the identifier the
    normaliser was called with; and the writer turns it into a full row. *)
Theorem v1_records_match_header (cnpj : string) (api_data : option json)
    (rs : list (gmap string string)) :
  V1.process_api_response cnpj api_data = Ok rs →
  Forall (λ r, dom r = list_to_set V1.csv_field_names ∧
               dom r = ({[ "cnpj"; "nome_qsa"; "qualificacao_qsa" ]} : gset string) ∧
               r !! "cnpj" = Some cnpj ∧
               ∃ nome qual,
                 r !! "nome_qsa" = Some nome ∧
                 r !! "qualificacao_qsa" = Some qual ∧
                 dict_to_list V1.csv_field_names r = Ok [cnpj; nome; qual]) rs.
Proof.
  intros H. destruct (V1_process_ok _ _ _ H) as [_ Hall].
  eapply Forall_impl; [exact Hall |]. intros r Hr.
  destruct (record_v1_lookup _ _ Hr) as (Hc & Hdom & Hcells).
  destruct Hr as (nome & qual & ->).
  split; [exact Hdom |]. split; [set_solver |]. split; [exact Hc |].
  exists nome, qual. rewrite Hcells. unfold nome_of. by simplify_map_eq.
Qed.

Lemma v1_records_match_header_witness :
  Forall (λ r, dom r = list_to_set V1.csv_field_names ∧
               dom r = ({[ "cnpj"; "nome_qsa"; "qualificacao_qsa" ]} : gset string) ∧
               r !! "cnpj" = Some sample_cnpj ∧
               ∃ nome qual,
                 r !! "nome_qsa" = Some nome ∧
                 r !! "qualificacao_qsa" = Some qual ∧
                 dict_to_list V1.csv_field_names r = Ok [sample_cnpj; nome; qual])
    [ {[ "cnpj" := sample_cnpj; "nome_qsa" := "N/A"; "qualificacao_qsa" := "Owner" ]} ].
Proof.
  apply (v1_records_match_header sample_cnpj (Some acme)).
  vm_compute. reflexivity.
Defined.

(** C3, as the code has it.  Both loaders build the identifier of a line
    they keep by removing the characters that are not digits and padding on
    the left with ['0'].  The identifier holds digits only and is as long as
    the larger of 14 and the number of digits on the line: exactly 14
    characters when the line has at most 14 digits, and longer otherwise,
    for nothing is cut off. *)
Theorem identifier_digits_and_length (lines : list string) :
  V1.formatted_cnpjs lines = identifier_of <$> List.filter nonblank lines ∧
  V2.formatted_cnpjs lines = identifier_of <$> List.filter has_digit lines ∧
  ∀ line,
    all_digits (identifier_of line) = true ∧
    String.length (identifier_of line)
    = 14 `max` String.length (re_sub_non_digits line).
Proof.
  split; [apply V1_formatted_cnpjs_filter |].
  split; [apply V2_formatted_cnpjs_filter |].
  apply identifier_of_shape.
Qed.

(** C3 as stated fails: a line of fifteen digits gives an identifier of
    fifteen characters. *)
Lemma identifier_longer_than_14 :
  V1.load_and_clean_cnpjs fifteen_digits = ["123456789012345"] ∧
  V2.load_and_clean_cnpjs fifteen_digits = ["123456789012345"] ∧
  String.length "123456789012345" ≠ 14.
Proof. split; [| split]; [reflexivity | reflexivity | discriminate]. Qed.

(** The loader of variant 2 is the loader of variant 1 run on the lines
    that hold a digit. *)
Lemma V2_formatted_cnpjs_V1 (lines : list string) :
  V2.formatted_cnpjs lines = V1.formatted_cnpjs (List.filter has_digit lines).
Proof.
  induction lines as [|line lines IH]; [done |].
  simpl. fold (has_digit line). destruct (has_digit line) eqn:Hd; [| done].
  simpl. unfold has_digit in Hd. rewrite (digits_truthy_strip _ Hd).
  by rewrite IH.
Qed.

(** C9, as the code has it.  The two loaders return the same list of
    identifiers for every file in which each non-blank line holds at least
    one digit.  (Variant 1 keeps a non-blank line without a digit, as
    fourteen zeros; variant 2 drops it.) *)
Theorem loaders_agree_on_digit_lines (file : option string) :
  every_line (λ line, implb (nonblank line) (has_digit line)) file = true →
  V2.load_and_clean_cnpjs file = V1.load_and_clean_cnpjs file.
Proof.
  destruct file as [text|]; [| done]. simpl.
  induction (readlines text) as [|line lines IH]; [done |].
  simpl. intros [Hline Hlines]%andb_prop. rewrite (IH Hlines).
  unfold nonblank, has_digit in Hline.
  destruct (str_truthy (strip line)) eqn:Hs; simpl in Hline.
  - by rewrite Hline.
  - destruct (strip line); [done | discriminate Hs].
Qed.

Lemma loaders_agree_on_digit_lines_witness :
  V2.load_and_clean_cnpjs formatted_and_blank
  = V1.load_and_clean_cnpjs formatted_and_blank.
Proof. apply (loaders_agree_on_digit_lines formatted_and_blank). reflexivity. Defined.

(** C9 as stated fails: on a line without a digit variant 1 yields fourteen
    zeros and variant 2 yields nothing. *)
Lemma loaders_differ_without_digit :
  V1.load_and_clean_cnpjs no_digit_line = ["00000000000000"] ∧
  V2.load_and_clean_cnpjs no_digit_line = [] ∧
  V1.load_and_clean_cnpjs no_digit_line ≠ V2.load_and_clean_cnpjs no_digit_line.
Proof. split; [| split]; [reflexivity | reflexivity | discriminate]. Qed.

Lemma V1_load_length (file : option string) :
  length (V1.load_and_clean_cnpjs file) = count_lines nonblank file.
Proof.
  destruct file as [text|]; [| done]. simpl.
  by rewrite V1_formatted_cnpjs_filter, length_fmap.
Qed.

Lemma V2_load_length (file : option string) :
  length (V2.load_and_clean_cnpjs file) = count_lines has_digit file.
Proof.
  destruct file as [text|]; [| done]. simpl.
  by rewrite V2_formatted_cnpjs_filter, length_fmap.
Qed.

(** C7, as the code has it.  Variant 1 loads one identifier per non-blank
    line and variant 2 one per line that holds a digit, repetitions
    included.  Over an endpoint whose payloads have the service's shape,
    the table written by variant 1 shows in its first column exactly the
    identifiers that were loaded, so that none is dropped; their number,
    counted without repetition, is at most the number of non-blank lines,
    and equals it when no identifier was loaded twice. *)
Theorem identifiers_all_represented (env : endpoint) (file : option string)
    (w : world) :
  env_shape env →
  length (V1.load_and_clean_cnpjs file) = count_lines nonblank file ∧
  length (V2.load_and_clean_cnpjs file) = count_lines has_digit file ∧
  ∃ table w',
    V1.main env file w = (Ok table, w') ∧
    identifiers_in table = list_to_set (V1.load_and_clean_cnpjs file) ∧
    (size (identifiers_in table) ≤ count_lines nonblank file)%nat ∧
    (NoDup (V1.load_and_clean_cnpjs file) →
     size (identifiers_in table) = count_lines nonblank file).
Proof.
  intros Henv. split; [apply V1_load_length |]. split; [apply V2_load_length |].
  destruct (V1_main_identifiers env file w Henv) as (table & w' & Hmain & Hids).
  exists table, w'. split; [exact Hmain |]. split; [exact Hids |].
  rewrite Hids, <- V1_load_length. split; [apply size_list_to_set_le |].
  apply size_list_to_set.
Qed.

Lemma identifiers_all_represented_witness :
  ∃ table w',
    V1.main always_acme formatted_and_blank fresh = (Ok table, w') ∧
    identifiers_in table
    = list_to_set (V1.load_and_clean_cnpjs formatted_and_blank).
Proof.
  destruct (identifiers_all_represented always_acme formatted_and_blank fresh)
    as (_ & _ & table & w' & Hmain & Hids & _).
  - intros k url. reflexivity.
  - exists table, w'. split; [exact Hmain | exact Hids].
Defined.

(** C7 as stated fails: two lines that give the same identifier are two
    non-blank lines, yet the output shows one identifier. *)
Lemma repeated_identifier_counted_once :
  count_lines nonblank same_line_twice = 2 ∧
  ∃ table w',
    V1.main always_down same_line_twice fresh = (Ok table, w') ∧
    size (identifiers_in table) = 1.
Proof.
  split; [reflexivity |]. eexists _, _. split; [vm_compute; reflexivity |].
  vm_compute. reflexivity.
Qed.

(** C8.  Over an endpoint whose payloads have the service's shape, the
    driver of variant 2 appends exactly one row per identifier, in order:
    the row carries the identifier, and its [dono] is the ['/']-joined list
    of the names in the records that the normaliser answered for the
    payload of that identifier.  So [main] hands the writer as many rows
    as identifiers were loaded; and a payload with N partners gives one
    row, whose [dono] joins the N names. *)
Theorem one_row_per_identifier (google : json → string) (env : endpoint)
    (cnpjs : list string) (w : world) :
  env_shape env →
  (∃ rows w',
     V2.batch_loop google env cnpjs [] w = (Ok rows, w') ∧
     length rows = length cnpjs ∧
     Forall2 (λ c row,
                row !! "cnpj" = Some (JStr c) ∧
                ∃ w1 socios,
                  V2.process_api_response c (V2.query_receitaws_api env c w1).1
                  = Ok socios ∧
                  row !! "dono" = Some (JStr (join "/" (nome_of <$> socios))))
             cnpjs rows) ∧
  (∀ file, ∃ written w',
     V2.main google env file w = (Ok written, w') ∧
     match written with
     | Some rows => length rows = length (V2.load_and_clean_cnpjs file)
     | None => V2.load_and_clean_cnpjs file = []
     end) ∧
  ∀ cnpj fields partners,
    fields !! "qsa" = Some (JArr partners) →
    partners ≠ [] →
    forallb partner_shape partners = true →
    eq_str (default JNull (fields !! "status")) "ERROR" = false →
    ∃ row,
      V2.detailed_row google cnpj (Some (JObj fields)) = Ok row ∧
      row !! "cnpj" = Some (JStr cnpj) ∧
      row !! "dono"
      = Some (JStr (join "/" ((λ p, or_placeholder (field_text p "nome"))
                                <$> partners))).
Proof.
  intros Henv. split; [| split].
  - destruct (V2_batch_loop_rows google env cnpjs [] w Henv)
      as (rows & w' & Hrun & Hrows).
    exists rows, w'. split; [exact Hrun |]. split; [| exact Hrows].
    symmetry. by eapply Forall2_length.
  - intros file. unfold V2.main.
    destruct (V2.load_and_clean_cnpjs file) as [|c loaded]; [by exists None, w |].
    destruct (V2_batch_loop_rows google env (c :: loaded) [] w Henv)
      as (rows & w' & Hrun & Hrows).
    rewrite Hrun. exists (Some rows), w'. split; [done |].
    symmetry. by eapply Forall2_length.
  - intros cnpj fields partners Hq Hne Hs Hst.
    destruct (process_partner_branch cnpj fields partners Hq Hne Hs Hst)
      as [_ H2].
    destruct (V2_detailed_row_shape google cnpj (Some (JObj fields)))
      as (row & socios & Hrow & Hsocios & Hc & Hd).
    { simpl. by rewrite Hq. }
    exists row. split; [exact Hrow |]. split; [exact Hc |].
    rewrite Hd. rewrite H2 in Hsocios. injection Hsocios as <-.
    by rewrite <- list_fmap_compose.
Qed.

Lemma one_row_per_identifier_witness :
  ∃ rows w',
    V2.batch_loop no_google always_acme [sample_cnpj; "00000000000191"] [] fresh
    = (Ok rows, w') ∧
    length rows = 2.
Proof.
  destruct (proj1 (one_row_per_identifier no_google always_acme
                     [sample_cnpj; "00000000000191"] fresh
                     (λ k url, eq_refl)))
    as (rows & w' & Hrun & Hlen & _).
  exists rows, w'. split; [exact Hrun | exact Hlen].
Defined.

Example two_partners_one_row :
  match (V2.batch_loop no_google (λ _ _, Response 200 two_partners)
           [sample_cnpj] [] fresh).1 with
  | Ok rows => (λ row, (row !! "cnpj", row !! "dono")) <$> rows
  | Raise _ => []
  end
  = [(Some (JStr sample_cnpj), Some (JStr "ANA/N/A"))].
Proof. vm_compute. reflexivity. Qed.

(** ** Further properties of the loader *)

Lemma lstrip_digits (s : string) : all_digits s = true → lstrip s = s.
Proof.
  destruct s as [|c s]; [done |]. simpl. intros [Hc _]%andb_prop.
  destruct (is_space c) eqn:Hs; [| done].
  by rewrite (space_not_digit _ Hs) in Hc.
Qed.

Lemma rstrip_digits (s : string) : all_digits s = true → rstrip s = s.
Proof.
  induction s as [|c s IH]; [done |]. simpl. intros [Hc Hs]%andb_prop.
  rewrite (IH Hs). destruct s as [|c' s]; [| done].
  destruct (is_space c) eqn:Hsp; [| done].
  by rewrite (space_not_digit _ Hsp) in Hc.
Qed.

Lemma re_sub_digits (s : string) : all_digits s = true → re_sub_non_digits s = s.
Proof.
  induction s as [|c s IH]; [done |]. simpl. intros [Hc Hs]%andb_prop.
  by rewrite Hc, (IH Hs).
Qed.

(** A well-formed identifier is a fixed point of the normalisation. *)
Lemma identifier_of_fixed (id : string) :
  all_digits id = true → (14 ≤ String.length id)%nat →
  identifier_of id = id ∧ nonblank id = true ∧ has_digit id = true.
Proof.
  intros Hd Hlen. unfold identifier_of, nonblank, has_digit, strip.
  rewrite (lstrip_digits _ Hd), (rstrip_digits _ Hd), (re_sub_digits _ Hd).
  split; [| by destruct id; [simpl in Hlen; lia |]].
  unfold zfill. by apply Nat.leb_le in Hlen as ->.
Qed.

(** X1.  The identifier of a line is the sequence of the digit characters
    of the line, in their order, with as many zeros in front as it takes to
    reach fourteen characters; nothing else of the line enters it. *)
Theorem identifier_is_padded_digits (line : string) :
  identifier_of line
  = zeros (14 - String.length (re_sub_non_digits line)) +:+ re_sub_non_digits line.
Proof.
  unfold identifier_of. rewrite re_sub_strip.
  apply zfill_digits, all_digits_re_sub.
Qed.

(** X2.  Loading is idempotent: each loader returns a list of well-formed
    identifiers (digits only, fourteen characters or more) unchanged, so
    loading what a loader has returned changes nothing. *)
Theorem loading_is_idempotent (lines : list string) :
  (Forall (λ id, all_digits id = true ∧ (14 ≤ String.length id)%nat) lines →
   V1.formatted_cnpjs lines = lines ∧ V2.formatted_cnpjs lines = lines) ∧
  V1.formatted_cnpjs (V1.formatted_cnpjs lines) = V1.formatted_cnpjs lines ∧
  V2.formatted_cnpjs (V2.formatted_cnpjs lines) = V2.formatted_cnpjs lines.
Proof.
  assert (Hfix : ∀ ids,
    Forall (λ id, all_digits id = true ∧ (14 ≤ String.length id)%nat) ids →
    V1.formatted_cnpjs ids = ids ∧ V2.formatted_cnpjs ids = ids).
  { intros ids Hids.
    induction Hids as [|id ids [Hd Hlen] Hrest [IH1 IH2]]; [done |].
    destruct (identifier_of_fixed id Hd Hlen) as (Hid & Hnb & Hhd). split.
    - change (V1.formatted_cnpjs (id :: ids))
        with (if nonblank id then identifier_of id :: V1.formatted_cnpjs ids
              else V1.formatted_cnpjs ids).
      by rewrite Hnb, Hid, IH1.
    - change (V2.formatted_cnpjs (id :: ids))
        with (if has_digit id then identifier_of id :: V2.formatted_cnpjs ids
              else V2.formatted_cnpjs ids).
      by rewrite Hhd, Hid, IH2. }
  assert (Hshape : ∀ keep (ls : list string),
    Forall (λ id, all_digits id = true ∧ (14 ≤ String.length id)%nat)
      (identifier_of <$> List.filter keep ls)).
  { intros keep ls. apply Forall_fmap, Forall_forall. intros line _. simpl.
    destruct (identifier_of_shape line) as [Hd Hlen]. split; [done |].
    rewrite Hlen. lia. }
  split; [apply Hfix |]. split.
  - apply Hfix. rewrite V1_formatted_cnpjs_filter. apply Hshape.
  - apply Hfix. rewrite V2_formatted_cnpjs_filter. apply Hshape.
Qed.

Lemma loading_is_idempotent_witness :
  V1.formatted_cnpjs ["11222333000181"; "00000000000191"]
  = ["11222333000181"; "00000000000191"] ∧
  V2.formatted_cnpjs ["11222333000181"; "00000000000191"]
  = ["11222333000181"; "00000000000191"].
Proof.
  apply (proj1 (loading_is_idempotent ["11222333000181"; "00000000000191"])).
  repeat constructor; simpl; lia.
Defined.

(** X3.  The loaders work line by line and keep the order: loading two
    lists of lines one after the other gives the two results one after the
    other.  A loader never returns more identifiers than there are lines,
    and what variant 2 returns is what variant 1 returns with some entries
    left out. *)
Theorem loading_keeps_order (lines1 lines2 : list string) :
  V1.formatted_cnpjs (lines1 ++ lines2)
  = V1.formatted_cnpjs lines1 ++ V1.formatted_cnpjs lines2 ∧
  V2.formatted_cnpjs (lines1 ++ lines2)
  = V2.formatted_cnpjs lines1 ++ V2.formatted_cnpjs lines2 ∧
  (length (V1.formatted_cnpjs lines1) ≤ length lines1)%nat ∧
  V2.formatted_cnpjs lines1 `sublist_of` V1.formatted_cnpjs lines1.
Proof.
  rewrite !V1_formatted_cnpjs_filter, !V2_formatted_cnpjs_filter.
  rewrite !List.filter_app, !fmap_app, length_fmap.
  split; [done |]. split; [done |]. split.
  - clear. induction lines1 as [|l ls IH]; simpl; [lia |].
    destruct (str_truthy (strip l)); simpl; lia.
  - apply fmap_sublist. clear.
    induction lines1 as [|l ls IH]; simpl; [done |].
    destruct (str_truthy (re_sub_non_digits (strip l))) eqn:Hd.
    + rewrite (digits_truthy_strip _ Hd). by apply sublist_skip.
    + destruct (str_truthy (strip l)); [by apply sublist_cons | done].
Qed.

(** ** Further properties of the normalisers *)

Lemma lstrip_head (s : string) :
  match lstrip s with
  | String c _ => is_space c = false
  | EmptyString => True
  end.
Proof.
  induction s as [|c s IH]; [done |]. simpl.
  destruct (is_space c) eqn:Hc; [exact IH | exact Hc].
Qed.

Lemma rstrip_idemp (s : string) : rstrip (rstrip s) = rstrip s.
Proof.
  induction s as [|c s IH]; [done |]. simpl.
  destruct (rstrip s) as [|c' kept] eqn:Hr.
  - destruct (is_space c) eqn:Hc; [done |]. simpl. by rewrite Hc.
  - change (rstrip (String c (String c' kept)))
      with (match rstrip (String c' kept) with
            | EmptyString => if is_space c then EmptyString else String c EmptyString
            | kept' => String c kept'
            end).
    by rewrite IH.
Qed.

Lemma rstrip_head (c : ascii) (s : string) :
  is_space c = false → ∃ kept, rstrip (String c s) = String c kept.
Proof.
  intros Hc. simpl. destruct (rstrip s); rewrite ?Hc; by eexists.
Qed.

(** [strip] removes all the white space there is at the two ends. *)
Lemma strip_idemp (s : string) : strip (strip s) = strip s.
Proof.
  unfold strip. pose proof (lstrip_head s) as Hhead.
  destruct (lstrip s) as [|c t]; [done |].
  destruct (rstrip_head c t Hhead) as [kept Hkept].
  rewrite Hkept. simpl lstrip. rewrite Hhead, <- Hkept. apply rstrip_idemp.
Qed.

Lemma or_placeholder_clean (s : string) :
  clean_text (if str_truthy (strip s) then strip s else "N/A").
Proof.
  destruct (str_truthy (strip s)) eqn:Ht.
  - split; [by destruct (strip s) | apply strip_idemp].
  - by split.
Qed.

Lemma strip_result (p : json) (key : string) (n : string) :
  dict_get p key (JStr "") ≫= str_strip = Ok n → ∃ s, n = strip s.
Proof.
  destruct p as [| | | | | fields]; try done. unbind.
  destruct (fields !! key) as [[]|]; try done; intros [= <-]; by eexists.
Qed.

Lemma V1_partner_loop_clean (cnpj : string) (partners : list json)
    (acc rs : list (gmap string string)) :
  Forall clean_record_v1 acc →
  V1.partner_loop cnpj partners acc = Ok rs → Forall clean_record_v1 rs.
Proof.
  revert acc. induction partners as [|p ps IH]; intros acc Hacc H; simpl in H.
  - by injection H as <-.
  - destruct (dict_get p "nome" (JStr "") ≫= str_strip) as [n|] eqn:Hn;
      [rewrite bind_Ok in H | by rewrite bind_Raise in H].
    destruct (dict_get p "qual" (JStr "") ≫= str_strip) as [q|] eqn:Hq;
      [rewrite bind_Ok in H | by rewrite bind_Raise in H].
    apply strip_result in Hn as [sn ->]. apply strip_result in Hq as [sq ->].
    apply IH in H; [done |]. apply Forall_app. split; [done |].
    constructor; [| done].
    eexists _, _. split; [by simplify_map_eq |]. split; [by simplify_map_eq |].
    split; apply or_placeholder_clean.
Qed.

Lemma V2_socio_loop_clean (cnpj : string) (socios : list json)
    (acc rs : list (gmap string string)) :
  Forall clean_record_v2 acc →
  V2.socio_loop cnpj socios acc = Ok rs → Forall clean_record_v2 rs.
Proof.
  revert acc. induction socios as [|p ps IH]; intros acc Hacc H; simpl in H.
  - by injection H as <-.
  - destruct (dict_get p "nome" (JStr "") ≫= str_strip) as [n|] eqn:Hn;
      [rewrite bind_Ok in H | by rewrite bind_Raise in H].
    apply strip_result in Hn as [sn ->].
    apply IH in H; [done |]. apply Forall_app. split; [done |].
    constructor; [| done].
    eexists. split; [by simplify_map_eq |]. apply or_placeholder_clean.
Qed.

Lemma V1_process_clean (cnpj : string) (api_data : option json)
    (rs : list (gmap string string)) :
  V1.process_api_response cnpj api_data = Ok rs → Forall clean_record_v1 rs.
Proof.
  assert (H1 : Forall clean_record_v1 [V1.placeholder cnpj]).
  { constructor; [| done]. by exists "N/A", "N/A". }
  unfold V1.process_api_response. destruct api_data as [data|]; simpl;
    [| by intros [= <-]].
  destruct (truthy data); simpl; [| by intros [= <-]].
  destruct (dict_get data "status" JNull) as [status|];
    [rewrite bind_Ok | by rewrite bind_Raise].
  destruct (eq_str status "ERROR"); [by intros [= <-] |].
  destruct (dict_get data "qsa" (JArr [])) as [qsa|];
    [rewrite bind_Ok | by rewrite bind_Raise].
  destruct (truthy qsa); [| by intros [= <-]].
  destruct (iterate qsa) as [partners|];
    [rewrite bind_Ok | by rewrite bind_Raise].
  by apply V1_partner_loop_clean.
Qed.

Lemma V2_process_clean (cnpj : string) (api_data : option json)
    (rs : list (gmap string string)) :
  V2.process_api_response cnpj api_data = Ok rs → Forall clean_record_v2 rs.
Proof.
  assert (H2 : Forall clean_record_v2 [placeholder_v2 cnpj]).
  { constructor; [| done]. by exists "N/A". }
  unfold V2.process_api_response. destruct api_data as [data|]; simpl;
    [| by intros [= <-]].
  destruct (truthy data); simpl; [| by intros [= <-]].
  destruct (dict_get data "status" JNull) as [status|];
    [rewrite bind_Ok | by rewrite bind_Raise].
  destruct (eq_str status "ERROR"); [by intros [= <-] |].
  destruct (dict_get data "qsa" (JArr [])) as [qsa|];
    [rewrite bind_Ok | by rewrite bind_Raise].
  destruct (iterate qsa) as [socios|];
    [rewrite bind_Ok | by rewrite bind_Raise].
  destruct (V2.socio_loop cnpj socios []) as [socios_list|] eqn:Hl;
    [rewrite bind_Ok | by rewrite bind_Raise].
  apply V2_socio_loop_clean in Hl; [| done].
  destruct socios_list; intros [= <-]; done.
Qed.

(** X4.  No partner cell of a record is ever empty or has white space
    around it: whatever the payload, the name and the role in a record that
    a normaliser answers are either the trimmed text of the payload or
    ["N/A"]. *)
Theorem partner_cells_are_clean (cnpj : string) (api_data : option json)
    (rs : list (gmap string string)) :
  (V1.process_api_response cnpj api_data = Ok rs →
   Forall (λ r, ∃ nome qual,
                  r !! "nome_qsa" = Some nome ∧
                  r !! "qualificacao_qsa" = Some qual ∧
                  clean_text nome ∧ clean_text qual) rs) ∧
  (V2.process_api_response cnpj api_data = Ok rs →
   Forall (λ r, ∃ nome, r !! "nome_qsa" = Some nome ∧ clean_text nome) rs).
Proof. split; [apply V1_process_clean | apply V2_process_clean]. Qed.

Lemma partner_cells_are_clean_witness :
  Forall (λ r : gmap string string, ∃ nome qual,
                 r !! "nome_qsa" = Some nome ∧
                 r !! "qualificacao_qsa" = Some qual ∧
                 clean_text nome ∧ clean_text qual)
    [ {[ "cnpj" := sample_cnpj; "nome_qsa" := "N/A"; "qualificacao_qsa" := "Owner" ]} ].
Proof.
  apply (proj1 (partner_cells_are_clean sample_cnpj (Some acme) _)).
  vm_compute. reflexivity.
Defined.

Lemma eq_str_true (v : json) (s : string) : eq_str v s = true → v = JStr s.
Proof. destruct v; simpl; try done. by intros ->%String.eqb_eq. Qed.

Lemma error_status_lookup (fields : gmap string json) :
  eq_str (default JNull (fields !! "status")) "ERROR" = true →
  fields !! "status" = Some (JStr "ERROR").
Proof.
  destruct (fields !! "status") as [v|]; simpl; [| done].
  by intros ->%eq_str_true.
Qed.

Lemma delete_role (cnpj nome qual : string) :
  delete "qualificacao_qsa"
    ({[ "cnpj" := cnpj; "nome_qsa" := nome; "qualificacao_qsa" := qual ]}
       : gmap string string)
  = {[ "cnpj" := cnpj; "nome_qsa" := nome ]}.
Proof.
  apply map_eq. intros k.
  destruct (decide (k = "qualificacao_qsa")) as [->|Hk].
  - by simplify_map_eq.
  - rewrite lookup_delete_ne by done.
    destruct (decide (k = "cnpj")) as [->|]; [by simplify_map_eq |].
    destruct (decide (k = "nome_qsa")) as [->|]; by simplify_map_eq.
Qed.

(** The two normalisers on a payload of the service's shape, rule by rule. *)
Lemma process_shape_cases (cnpj : string) (api_data : option json) :
  api_data_shape api_data = true →
  (V1.process_api_response cnpj api_data = Ok [V1.placeholder cnpj] ∧
   V2.process_api_response cnpj api_data = Ok [placeholder_v2 cnpj] ∧
   record_count api_data = 1) ∨
  (∃ fields p ps,
     api_data = Some (JObj fields) ∧
     V1.process_api_response cnpj api_data = Ok (partner_record_v1 cnpj <$> p :: ps) ∧
     V2.process_api_response cnpj api_data = Ok (partner_record_v2 cnpj <$> p :: ps) ∧
     record_count api_data = length (p :: ps)).
Proof.
  destruct api_data as [data|]; [| by left].
  destruct data as [| | | | | fields]; try done.
  intros Hs. simpl in Hs. unfold record_count.
  destruct (eq_str (default JNull (fields !! "status")) "ERROR") eqn:Hst.
  - left. apply error_status_lookup in Hst.
    destruct (process_error_branch cnpj (Some (JObj fields))) as [H1 H2];
      [right; by eexists | done].
  - destruct (fields !! "qsa") as [qsa|] eqn:Hq.
    + destruct qsa as [| | | | partners |]; try done.
      destruct partners as [|p ps].
      * left. destruct (process_no_partner_branch cnpj fields) as [H1 H2];
          [by right | done].
      * right. exists fields, p, ps.
        destruct (process_partner_branch cnpj fields (p :: ps)) as [H1 H2];
          done.
    + left. destruct (process_no_partner_branch cnpj fields) as [H1 H2];
        [by left | done].
Qed.

(** X5.  On a payload of the service's shape the two normalisers answer
    the same number of records: one when the payload is absent or its
    status is ["ERROR"], and otherwise one per partner, but never fewer
    than one. *)
Theorem number_of_records (cnpj : string) (api_data : option json) :
  api_data_shape api_data = true →
  ∃ rs1 rs2,
    V1.process_api_response cnpj api_data = Ok rs1 ∧
    V2.process_api_response cnpj api_data = Ok rs2 ∧
    length rs1 = record_count api_data ∧
    length rs2 = record_count api_data.
Proof.
  intros Hs.
  destruct (process_shape_cases cnpj api_data Hs)
    as [(H1 & H2 & Hn) | (fields & p & ps & -> & H1 & H2 & Hn)];
    eexists _, _; (split; [exact H1 |]); (split; [exact H2 |]);
    rewrite Hn; by rewrite ?length_fmap.
Qed.

Lemma number_of_records_witness :
  ∃ rs1 rs2,
    V1.process_api_response sample_cnpj (Some two_partners) = Ok rs1 ∧
    V2.process_api_response sample_cnpj (Some two_partners) = Ok rs2 ∧
    length rs1 = 2 ∧ length rs2 = 2.
Proof. apply (number_of_records sample_cnpj (Some two_partners)). reflexivity. Defined.

(** X6.  On a payload of the service's shape the records of variant 2 are
    the records of variant 1 without the role: same number, same order,
    same identifier and same name. *)
Theorem v2_records_are_v1_without_role (cnpj : string) (api_data : option json) :
  api_data_shape api_data = true →
  ∃ rs1,
    V1.process_api_response cnpj api_data = Ok rs1 ∧
    V2.process_api_response cnpj api_data
    = Ok (delete "qualificacao_qsa" <$> rs1).
Proof.
  intros Hs.
  destruct (process_shape_cases cnpj api_data Hs)
    as [(H1 & H2 & _) | (fields & p & ps & -> & H1 & H2 & _)];
    eexists; (split; [exact H1 |]); rewrite H2.
  - unfold V1.placeholder, placeholder_v2.
    change (delete "qualificacao_qsa" <$> [?r]) with [delete "qualificacao_qsa" r].
    by rewrite delete_role.
  - by rewrite <- list_fmap_compose.
Qed.

Lemma v2_records_are_v1_without_role_witness :
  ∃ rs1,
    V1.process_api_response sample_cnpj (Some two_partners) = Ok rs1 ∧
    V2.process_api_response sample_cnpj (Some two_partners)
    = Ok (delete "qualificacao_qsa" <$> rs1).
Proof.
  apply (v2_records_are_v1_without_role sample_cnpj (Some two_partners)).
  reflexivity.
Defined.

(** X7.  A decoded body that is true and is not an object (a JSON list, a
    string, a number) makes both normalisers raise [AttributeError]; as
    nothing catches it, the driver loop of either variant stops at that
    identifier with the exception, and the records gathered so far are not
    returned. *)
Theorem non_object_payload_aborts (env : endpoint) (cnpj : string)
    (more : list string) (w : world) (status_code : Z) (data : json) :
  env (requests w) (RECEITAWS_BASE_URL +:+ cnpj) = Response status_code data →
  failed (Response status_code data) = false →
  truthy data = true →
  (∀ fields, data ≠ JObj fields) →
  V1.process_api_response cnpj (Some data) = Raise AttributeError ∧
  V2.process_api_response cnpj (Some data) = Raise AttributeError ∧
  (∀ acc, (V1.batch_loop env (cnpj :: more) acc w).1 = Raise AttributeError) ∧
  (∀ google acc,
     (V2.batch_loop google env (cnpj :: more) acc w).1 = Raise AttributeError).
Proof.
  intros Hresp Hok Ht Hobj.
  assert (H1 : V1.process_api_response cnpj (Some data) = Raise AttributeError).
  { unfold V1.process_api_response. rewrite Ht.
    destruct data; try done. by destruct (Hobj fields). }
  assert (H2 : V2.process_api_response cnpj (Some data) = Raise AttributeError).
  { unfold V2.process_api_response. rewrite Ht.
    destruct data; try done. by destruct (Hobj fields). }
  assert (Hq : ∀ w0, requests w0 = requests w →
    (V1.query_receitaws_api env cnpj w0).1 = Some data).
  { intros w0 Hw0. unfold V1.query_receitaws_api. simpl seq.
    rewrite <- Hw0 in Hresp. by rewrite (V1_success_step _ _ _ _ _ _ _ _ Hresp Hok). }
  split; [exact H1 |]. split; [exact H2 |]. split.
  - intros acc. simpl V1.batch_loop.
    specialize (Hq (pacing_wait w) eq_refl).
    destruct (V1.query_receitaws_api env cnpj (pacing_wait w)) as [api w1].
    simpl in Hq. subst api. by rewrite H1.
  - intros google acc. simpl V2.batch_loop.
    specialize (Hq (pacing_wait w) eq_refl).
    rewrite <- V2_query_eq in Hq.
    destruct (V2.query_receitaws_api env cnpj (pacing_wait w)) as [api w1].
    simpl in Hq. subst api.
    unfold V2.detailed_row. simpl V2.or_empty_dict. rewrite Ht.
    destruct data; try done. by destruct (Hobj fields).
Qed.

Lemma non_object_payload_aborts_witness :
  V1.process_api_response sample_cnpj (Some json_list) = Raise AttributeError ∧
  (V1.batch_loop (λ _ _, Response 200 json_list) [sample_cnpj; "00000000000191"]
     [V1.placeholder "00000000000000"] fresh).1 = Raise AttributeError.
Proof.
  destruct (non_object_payload_aborts (λ _ _, Response 200 json_list) sample_cnpj
              ["00000000000191"] fresh 200%Z json_list)
    as (H1 & _ & H3 & _); try reflexivity.
  - intros fields. discriminate.
  - split; [exact H1 | apply H3].
Defined.

(** X8.  A partner list that is present but [null], [false] or [0] is taken
    for an empty list by variant 1, which answers the placeholder record,
    whereas variant 2 iterates over it and raises [TypeError]. *)
Theorem null_partner_list (cnpj : string) (fields : gmap string json) (qsa : json) :
  fields !! "qsa" = Some qsa →
  qsa = JNull ∨ qsa = JBool false ∨ qsa = JNum 0 →
  eq_str (default JNull (fields !! "status")) "ERROR" = false →
  V1.process_api_response cnpj (Some (JObj fields)) = Ok [V1.placeholder cnpj] ∧
  V2.process_api_response cnpj (Some (JObj fields)) = Raise TypeError.
Proof.
  intros Hq Hqsa Hst.
  unfold V1.process_api_response, V2.process_api_response.
  rewrite (truthy_obj_lookup _ _ _ Hq). simpl. rewrite Hq.
  assert (Hst' : eq_str match fields !! "status" with
                            | Some v => v
                            | None => JNull
                            end "ERROR" = false)
    by (by destruct (fields !! "status")).
  rewrite Hst'. by destruct Hqsa as [-> | [-> | ->]].
Qed.

Lemma null_partner_list_witness :
  V1.process_api_response sample_cnpj (Some (JObj null_partners))
  = Ok [V1.placeholder sample_cnpj] ∧
  V2.process_api_response sample_cnpj (Some (JObj null_partners)) = Raise TypeError.
Proof.
  apply (null_partner_list sample_cnpj null_partners JNull);
    [vm_compute; reflexivity | by left | vm_compute; reflexivity].
Defined.

(** ** Further properties of the client *)




(** What one run of the retry loop adds to the trace. *)
Lemma V1_attempt_loop_added (env : endpoint) (url : string) (attempts : list nat)
    (backoff_factor : Z) (w : world) :
  ∃ new,
    (V1.attempt_loop env url attempts backoff_factor w).2
    = World (length (gets_of new) + requests w) (trace w ++ new) ∧
    gets_of new = replicate (length (gets_of new)) url ∧
    (length (gets_of new) ≤ length attempts)%nat ∧
    (attempts ≠ [] → ∃ rest, new = Get url :: rest) ∧
    backoff_schedule backoff_factor (sleeps_of new) ∧
    (length (sleeps_of new) ≤ length (gets_of new))%nat ∧
    pacing_waits_of new = 0.
Proof.
  revert backoff_factor w.
  induction attempts as [|a later IH]; intros b w.
  - exists []. simpl. destruct w. by rewrite app_nil_r.
  - rewrite V1_attempt_loop_cons. cbv zeta.
    assert (Hstop : ∀ res : option json, ∃ new,
      (res, (session_get env url w).2).2
      = World (length (gets_of new) + requests w) (trace w ++ new) ∧
      gets_of new = replicate (length (gets_of new)) url ∧
      (length (gets_of new) ≤ length (a :: later))%nat ∧
      (a :: later ≠ [] → ∃ rest, new = Get url :: rest) ∧
      backoff_schedule b (sleeps_of new) ∧
      (length (sleeps_of new) ≤ length (gets_of new))%nat ∧
      pacing_waits_of new = 0).
    { intros res. exists [Get url]. simpl.
      repeat split; try done; try lia. by eexists. }
    assert (Hrec : ∀ secs, (secs = b * 5 ∨ secs = b * 2)%Z → ∃ new,
      (V1.attempt_loop env url later (b * 2)
         (time_sleep secs (session_get env url w).2)).2
      = World (length (gets_of new) + requests w) (trace w ++ new) ∧
      gets_of new = replicate (length (gets_of new)) url ∧
      (length (gets_of new) ≤ length (a :: later))%nat ∧
      (a :: later ≠ [] → ∃ rest, new = Get url :: rest) ∧
      backoff_schedule b (sleeps_of new) ∧
      (length (sleeps_of new) ≤ length (gets_of new))%nat ∧
      pacing_waits_of new = 0).
    { intros secs Hsecs.
      destruct (IH (b * 2)%Z (time_sleep secs (session_get env url w).2))
        as (new & Hw & Hg & Hlen & _ & Hsch & Hsl & Hp).
      exists (Get url :: Sleep secs :: new). rewrite Hw. simpl.
      split; [f_equal; [lia | by rewrite <- !app_assoc] |].
      split; [by rewrite <- Hg |]. split; [lia |].
      split; [intros _; by eexists |]. split; [done |]. split; [lia |].
      exact Hp. }
    assert (Hexc : ∃ new,
      (if (a <? MAX_API_RETRIES)%nat
       then V1.attempt_loop env url later (b * 2)
              (time_sleep (b * 2) (session_get env url w).2)
       else (None, (session_get env url w).2)).2
      = World (length (gets_of new) + requests w) (trace w ++ new) ∧
      gets_of new = replicate (length (gets_of new)) url ∧
      (length (gets_of new) ≤ length (a :: later))%nat ∧
      (a :: later ≠ [] → ∃ rest, new = Get url :: rest) ∧
      backoff_schedule b (sleeps_of new) ∧
      (length (sleeps_of new) ≤ length (gets_of new))%nat ∧
      pacing_waits_of new = 0).
    { destruct (a <? MAX_API_RETRIES)%nat; [apply Hrec; by right | apply Hstop]. }
    destruct (env (requests w) url) as [|status_code body]; [exact Hexc |].
    destruct (status_code =? 429)%Z; [apply Hrec; by left |].
    destruct (raise_for_status status_code); [exact Hexc | apply Hstop].
Qed.

Lemma added_app (w : world) (n : nat) (new : list event) :
  added w (World n (trace w ++ new)) = new.
Proof. unfold added. simpl. by rewrite drop_app_length. Qed.

(** X10.  One lookup sends at least one and at most five requests, all of
    them to the address of its identifier; the first thing it does is to
    send a request, and it never sleeps more often than it has sent
    requests. *)
Theorem lookup_sends_one_to_five_requests (env : endpoint) (cnpj : string)
    (w : world) :
  let url := RECEITAWS_BASE_URL +:+ cnpj in
  let w' := (V1.query_receitaws_api env cnpj w).2 in
  (V2.query_receitaws_api env cnpj w).2 = w' ∧
  (requests w < requests w' ≤ requests w + MAX_API_RETRIES)%nat ∧
  take (length (trace w)) (trace w') = trace w ∧
  gets_of (added w w') = replicate (requests w' - requests w) url ∧
  head (added w w') = Some (Get url) ∧
  (length (sleeps_of (added w w')) ≤ requests w' - requests w)%nat.
Proof.
  intros url w'. split; [by rewrite V2_query_eq |].
  destruct (V1_attempt_loop_added env url (seq 1 MAX_API_RETRIES) 1 w)
    as (new & Hw & Hg & Hlen & Hhead & _ & Hsl & _).
  change (V1.attempt_loop env url (seq 1 MAX_API_RETRIES) 1 w).2 with w' in Hw.
  destruct Hhead as [rest Hrest]; [done |].
  rewrite Hw, added_app. simpl requests. simpl trace.
  replace (length (gets_of new) + requests w - requests w)
    with (length (gets_of new)) by lia.
  assert (0 < length (gets_of new))%nat by (rewrite Hrest; simpl; lia).
  simpl in Hlen.
  split; [unfold MAX_API_RETRIES; lia |].
  split; [by rewrite take_app_length |].
  split; [exact Hg |]. split; [by rewrite Hrest | exact Hsl].
Qed.

Lemma schedule_from_one (sleeps : list Z) :
  backoff_schedule 1 sleeps → (length sleeps ≤ 5)%nat →
  (∀ i seconds, sleeps !! i = Some seconds →
     (seconds = 5 * 2 ^ Z.of_nat i ∨ seconds = 2 * 2 ^ Z.of_nat i)%Z) ∧
  (sum_Z sleeps ≤ 155)%Z.
Proof.
  intros Hsch Hlen.
  destruct sleeps as [|d0 [|d1 [|d2 [|d3 [|d4 [|d5 more]]]]]];
    simpl in Hsch, Hlen; try lia; unfold sum_Z; simpl.
  all: split;
    [ intros i seconds Hi;
      do 5 (destruct i as [|i];
            [simpl in Hi;
             first [discriminate Hi
                   | injection Hi as <-; vm_compute (_ ^ _)%Z; lia] |]);
      simpl in Hi; discriminate Hi
    | lia ].
Qed.

(** X11.  The waits of one lookup follow one doubling factor: the wait
    number i (from 0) lasts 5 * 2^i seconds after a 429 and 2 * 2^i seconds
    after another error.  There are at most five of them and together they
    last at most 155 seconds. *)
Theorem lookup_waits_double (env : endpoint) (cnpj : string) (w : world) :
  let sleeps := sleeps_of (added w (V1.query_receitaws_api env cnpj w).2) in
  (length sleeps ≤ 5)%nat ∧
  (∀ i seconds, sleeps !! i = Some seconds →
     (seconds = 5 * 2 ^ Z.of_nat i ∨ seconds = 2 * 2 ^ Z.of_nat i)%Z) ∧
  (sum_Z sleeps ≤ 155)%Z ∧
  sleeps = sleeps_of (added w (V2.query_receitaws_api env cnpj w).2).
Proof.
  intros sleeps. subst sleeps. rewrite (V2_query_eq env cnpj w).
  destruct (V1_attempt_loop_added env (RECEITAWS_BASE_URL +:+ cnpj)
              (seq 1 MAX_API_RETRIES) 1 w)
    as (new & Hw & _ & Hlen & _ & Hsch & Hsl & _).
  unfold V1.query_receitaws_api. rewrite Hw, added_app.
  simpl in Hlen.
  assert (Hfive : (length (sleeps_of new) ≤ 5)%nat) by lia.
  destruct (schedule_from_one _ Hsch Hfive) as [Hidx Hsum].
  done.
Qed.

Lemma V1_generic_error_step (env : endpoint) (url : string) (attempt_number : nat)
    (later : list nat) (backoff_factor : Z) (w : world) :
  generic_error (env (requests w) url) = true →
  V1.attempt_loop env url (attempt_number :: later) backoff_factor w
  = if (attempt_number <? MAX_API_RETRIES)%nat then
      V1.attempt_loop env url later (backoff_factor * 2)
        (time_sleep (backoff_factor * 2) (session_get env url w).2)
    else (None, (session_get env url w).2).
Proof.
  intros H. rewrite V1_attempt_loop_cons. cbv zeta.
  destruct (env (requests w) url) as [|status_code body]; [done |].
  simpl in H. apply andb_prop in H as [H1 H2].
  apply negb_true_iff in H1. by rewrite H1, H2.
Qed.

(** X12.  When the five attempts all fail with an error that is not a 429
    (a raised request error or a 4xx/5xx status), the client waits 2, 4, 8
    and 16 seconds between them and gives up right after the fifth request,
    without a further wait. *)
Theorem generic_errors_wait_2_4_8_16 (env : endpoint) (cnpj : string) (w : world) :
  let url := RECEITAWS_BASE_URL +:+ cnpj in
  (∀ k, k < MAX_API_RETRIES → generic_error (env (k + requests w) url) = true) →
  V1.query_receitaws_api env cnpj w
  = (None,
     World (5 + requests w)
       (trace w ++ [Get url; Sleep 2; Get url; Sleep 4; Get url; Sleep 8;
                    Get url; Sleep 16; Get url])) ∧
  V2.query_receitaws_api env cnpj w = V1.query_receitaws_api env cnpj w.
Proof.
  intros url H. split; [| apply V2_query_eq].
  pose proof (H 0 ltac:(unfold MAX_API_RETRIES; lia)) as H0.
  pose proof (H 1 ltac:(unfold MAX_API_RETRIES; lia)) as H1.
  pose proof (H 2 ltac:(unfold MAX_API_RETRIES; lia)) as H2.
  pose proof (H 3 ltac:(unfold MAX_API_RETRIES; lia)) as H3.
  pose proof (H 4 ltac:(unfold MAX_API_RETRIES; lia)) as H4.
  simpl in H0, H1, H2, H3, H4.
  unfold V1.query_receitaws_api. fold url. simpl seq.
  rewrite V1_generic_error_step by exact H0. simpl (_ <? _)%nat. cbv iota.
  rewrite V1_generic_error_step by exact H1. simpl (_ <? _)%nat. cbv iota.
  rewrite V1_generic_error_step by exact H2. simpl (_ <? _)%nat. cbv iota.
  rewrite V1_generic_error_step by exact H3. simpl (_ <? _)%nat. cbv iota.
  rewrite V1_generic_error_step by exact H4. simpl (_ <? _)%nat. cbv iota.
  unfold session_get, time_sleep. simpl. by rewrite <- !app_assoc.
Qed.

Lemma generic_errors_wait_2_4_8_16_witness :
  V1.query_receitaws_api (λ _ _, Response 503 JNull) sample_cnpj fresh
  = (None,
     World 5 [Get sample_url; Sleep 2; Get sample_url; Sleep 4; Get sample_url;
              Sleep 8; Get sample_url; Sleep 16; Get sample_url]).
Proof.
  apply (proj1 (generic_errors_wait_2_4_8_16 (λ _ _, Response 503 JNull)
                  sample_cnpj fresh (λ k Hk, eq_refl))).
Defined.

(** ** Further properties of the drivers *)

(** A run of the loop of variant 1 that ends has turned each identifier, in
    order, into a non-empty group of its records. *)
Lemma V1_batch_loop_ok_groups (env : endpoint) (cnpjs : list string)
    (acc rs : list (gmap string string)) (w w' : world) :
  V1.batch_loop env cnpjs acc w = (Ok rs, w') →
  ∃ groups,
    rs = acc ++ concat groups ∧
    Forall2 (λ c g, g ≠ [] ∧ Forall (record_v1 c) g) cnpjs groups.
Proof.
  revert acc w. induction cnpjs as [|c cnpjs IH]; intros acc w; simpl.
  - intros [= <- <-]. exists []. by rewrite app_nil_r.
  - destruct (V1.query_receitaws_api env c (pacing_wait w)) as [api_data w1].
    destruct (V1.process_api_response c api_data) as [current|e] eqn:Hp;
      [| done].
    intros (groups & -> & Hgroups)%IH.
    exists (current :: groups). simpl. rewrite app_assoc. split; [done |].
    constructor; [| done]. by apply V1_process_ok in Hp.
Qed.

Lemma group_cnpjs (c : string) (g : list (gmap string string)) :
  Forall (record_v1 c) g → cnpj_of <$> g = replicate (length g) c.
Proof.
  induction 1 as [|r g Hr Hrest IH]; [done |].
  destruct (record_v1_lookup _ _ Hr) as [Hc _].
  simpl. rewrite <- IH. f_equal. unfold cnpj_of. by rewrite Hc.
Qed.

(** X13.  The records that the driver of variant 1 gathers follow the input
    order: their identifier column is the list of the identifiers, each one
    repeated as many times as it has records, and at least once. *)
Theorem records_follow_input_order (env : endpoint) (cnpjs : list string)
    (rs : list (gmap string string)) (w w' : world) :
  V1.batch_loop env cnpjs [] w = (Ok rs, w') →
  ∃ counts,
    Forall2 (λ (c : string) (n : nat), (1 ≤ n)%nat) cnpjs counts ∧
    cnpj_of <$> rs = concat (zip_with replicate counts cnpjs).
Proof.
  intros (groups & -> & Hgroups)%V1_batch_loop_ok_groups. simpl.
  exists (length <$> groups).
  induction Hgroups as [|c g cnpjs groups [Hne Hall] Hrest [IH1 IH2]];
    [done |].
  split.
  - constructor; [| exact IH1]. destruct g; [done | simpl; lia].
  - simpl. by rewrite fmap_app, IH2, (group_cnpjs c g).
Qed.

Lemma records_follow_input_order_witness :
  ∃ counts,
    Forall2 (λ (c : string) (n : nat), (1 ≤ n)%nat)
      [sample_cnpj; "00000000000191"] counts ∧
    cnpj_of <$> [V1.placeholder sample_cnpj; V1.placeholder "00000000000191"]
    = concat (zip_with replicate counts [sample_cnpj; "00000000000191"]).
Proof.
  apply (records_follow_input_order always_down [sample_cnpj; "00000000000191"]
           _ fresh (World 10 (trace (V1.batch_loop always_down
              [sample_cnpj; "00000000000191"] [] fresh).2))).
  vm_compute. reflexivity.
Defined.

Lemma gets_of_app (a b : list event) : gets_of (a ++ b) = gets_of a ++ gets_of b.
Proof. apply omap_app. Qed.

Lemma pacing_waits_of_app (a b : list event) :
  pacing_waits_of (a ++ b) = pacing_waits_of a + pacing_waits_of b.
Proof. unfold pacing_waits_of. by rewrite List.filter_app, length_app. Qed.

Lemma V1_batch_loop_added (env : endpoint) (cnpjs : list string)
    (acc : list (gmap string string)) (w : world) :
  ∃ new,
    (V1.batch_loop env cnpjs acc w).2
    = World (length (gets_of new) + requests w) (trace w ++ new) ∧
    (length (gets_of new) ≤ MAX_API_RETRIES * length cnpjs)%nat ∧
    (∀ rs, (V1.batch_loop env cnpjs acc w).1 = Ok rs →
       (length cnpjs ≤ length (gets_of new))%nat ∧
       pacing_waits_of new = length cnpjs).
Proof.
  revert acc w. induction cnpjs as [|c cnpjs IH]; intros acc w.
  - exists []. simpl. destruct w. rewrite app_nil_r. repeat split; lia.
  - simpl V1.batch_loop.
    destruct (V1_attempt_loop_added env (RECEITAWS_BASE_URL +:+ c)
                (seq 1 MAX_API_RETRIES) 1 (pacing_wait w))
      as (newq & Hw & _ & Hlen & Hhead & _ & _ & Hpq).
    destruct Hhead as [rest Hrest]; [done |].
    assert (Hpos : (1 ≤ length (gets_of newq))%nat)
      by (rewrite Hrest; simpl; lia).
    fold (V1.query_receitaws_api env c (pacing_wait w)) in Hw.
    destruct (V1.query_receitaws_api env c (pacing_wait w)) as [api_data w1].
    simpl in Hw. subst w1. simpl in Hlen.
    destruct (V1.process_api_response c api_data) as [current|e].
    + destruct (IH (acc ++ current)
                  (World (length (gets_of newq) + requests w)
                     ((trace w ++ [PacingWait]) ++ newq)))
        as (new & Hw' & Hle & Hok).
      exists (PacingWait :: newq ++ new). rewrite Hw'. simpl.
      rewrite gets_of_app, length_app.
      split; [f_equal; first [lia | by rewrite <- ?app_assoc] |].
      split; [unfold MAX_API_RETRIES in *; lia |].
      intros rs Hrs. destruct (Hok rs Hrs) as [Hge Hp].
      split; [lia |].
      change (PacingWait :: newq ++ new) with ([PacingWait] ++ newq ++ new).
      rewrite !pacing_waits_of_app, Hpq, Hp. done.
    + exists (PacingWait :: newq). simpl.
      split; [f_equal; first [lia | by rewrite <- ?app_assoc] |].
      split; [unfold MAX_API_RETRIES in *; lia | done].
Qed.

(** X14.  Whatever the endpoint answers, the driver of variant 1 sends at
    most five requests per identifier; and a run that ends without an
    exception has sent at least one request per identifier and has checked
    the pacing interval exactly once per identifier. *)
Theorem batch_request_budget (env : endpoint) (cnpjs : list string)
    (acc : list (gmap string string)) (w : world) :
  let run := V1.batch_loop env cnpjs acc w in
  (requests run.2 ≤ requests w + MAX_API_RETRIES * length cnpjs)%nat ∧
  take (length (trace w)) (trace run.2) = trace w ∧
  ∀ rs, run.1 = Ok rs →
    (requests w + length cnpjs ≤ requests run.2)%nat ∧
    pacing_waits_of (added w run.2) = length cnpjs.
Proof.
  intros run. subst run.
  destruct (V1_batch_loop_added env cnpjs acc w) as (new & Hw & Hle & Hok).
  rewrite Hw, added_app. simpl requests. simpl trace.
  split; [lia |]. split; [by rewrite take_app_length |].
  intros rs Hrs. destruct (Hok rs Hrs). split; [lia | done].
Qed.

Lemma batch_request_budget_witness :
  (requests w_after_two ≤ 10)%nat ∧ pacing_waits_of (added fresh w_after_two) = 2.
Proof.
  destruct (batch_request_budget always_acme [sample_cnpj; "00000000000191"]
              [] fresh) as (H1 & _ & H3).
  destruct (H3 _ eq_refl) as [_ H4].
  split; [exact H1 | exact H4].
Defined.

Lemma writerows_cells (rows : list (gmap string string)) :
  Forall (λ r, ∃ c, record_v1 c r) rows →
  writerows V1.csv_field_names rows
  = Ok ((λ r, [cnpj_of r; nome_of r; default "" (r !! "qualificacao_qsa")])
          <$> rows).
Proof.
  induction 1 as [|r rows [c Hr] Hrest IH]; [done |].
  destruct (record_v1_lookup _ _ Hr) as (Hc & _ & Hcells).
  unfold writerows in *. rewrite traverse_cons, Hcells, bind_Ok, IH, bind_Ok.
  simpl. unfold cnpj_of. by rewrite Hc.
Qed.

(** X15.  A table that variant 1 writes is well formed: its first row is
    the header, every other row has exactly three cells, the first of which
    is one of the identifiers that were loaded, and there are at least as
    many such rows as identifiers. *)
Theorem written_table_is_rectangular (env : endpoint) (file : option string)
    (w w' : world) (table : list (list string)) :
  V1.main env file w = (Ok (Some table), w') →
  ∃ body,
    table = V1.csv_field_names :: body ∧
    Forall (λ row, length row = 3 ∧
                   ∃ c, head row = Some c ∧ c ∈ V1.load_and_clean_cnpjs file) body ∧
    (length (V1.load_and_clean_cnpjs file) ≤ length body)%nat.
Proof.
  unfold V1.main.
  destruct (V1.load_and_clean_cnpjs file) as [|c0 cnpjs]; [done |].
  destruct (V1.batch_loop env (c0 :: cnpjs) [] w) as [[rs|e] w1] eqn:Hrun;
    [| done].
  apply V1_batch_loop_ok_groups in Hrun as (groups & -> & Hgroups).
  simpl app. destruct (groups_records _ _ Hgroups) as [Hrecs _].
  rewrite (writerows_cells _ Hrecs).
  assert (Hcells : Forall (λ r, ∃ c, r !! "cnpj" = Some c ∧ c ∈ c0 :: cnpjs)
                     (concat groups)).
  { clear -Hgroups.
    induction Hgroups as [|c g cs gs [Hne Hall] Hrest IH]; [done |].
    simpl. apply Forall_app. split.
    - eapply Forall_impl; [exact Hall |]. intros r' Hr'. simpl.
      destruct (record_v1_lookup _ _ Hr') as [Hc _].
      exists c. split; [done | by left].
    - eapply Forall_impl; [exact IH |]. intros r' (c' & Hc' & Hin).
      exists c'. split; [done | by right]. }
  assert (Hlen : (length (c0 :: cnpjs) ≤ length (concat groups))%nat).
  { clear -Hgroups.
    induction Hgroups as [|c g cs gs [Hne Hall] Hrest IH]; [done |].
    simpl. rewrite length_app. destruct g; [done | simpl; lia]. }
  destruct (concat groups) as [|r rows]; [done |].
  intros [= <- <-]. eexists. split; [done |].
  change (Forall (λ row, length row = 3 ∧
                         ∃ c, head row = Some c ∧ c ∈ c0 :: cnpjs)
            ((λ r0 : gmap string string,
                [cnpj_of r0; nome_of r0; default "" (r0 !! "qualificacao_qsa")])
               <$> r :: rows) ∧
          (length (c0 :: cnpjs)
           ≤ length ((λ r0 : gmap string string,
                        [cnpj_of r0; nome_of r0;
                         default "" (r0 !! "qualificacao_qsa")])
                       <$> r :: rows))%nat).
  rewrite length_fmap. split; [| exact Hlen]. apply Forall_fmap.
  eapply Forall_impl; [exact Hcells |]. intros r' (c & Hc & Hin). simpl.
  split; [done |]. exists c. unfold cnpj_of. by rewrite Hc.
Qed.

Lemma written_table_is_rectangular_witness :
  ∃ body,
    [V1.csv_field_names; [sample_cnpj; "N/A"; "N/A"]; ["00000000000191"; "N/A"; "N/A"]]
    = V1.csv_field_names :: body ∧
    Forall (λ row, length row = 3 ∧
                   ∃ c, head row = Some c ∧
                        c ∈ V1.load_and_clean_cnpjs formatted_and_blank) body ∧
    (length (V1.load_and_clean_cnpjs formatted_and_blank) ≤ length body)%nat.
Proof.
  apply (written_table_is_rectangular always_down formatted_and_blank fresh
           (V1.main always_down formatted_and_blank fresh).2).
  vm_compute. reflexivity.
Defined.

Lemma filter_nil_length {A : Type} (keep : A → bool) (l : list A) :
  length (List.filter keep l) = 0 → List.filter keep l = [].
Proof. by destruct (List.filter keep l). Qed.

Lemma no_nonblank_no_digit (lines : list string) :
  List.filter (λ line, str_truthy (strip line)) lines = [] →
  List.filter (λ line, str_truthy (re_sub_non_digits (strip line))) lines = [].
Proof.
  induction lines as [|l ls IH]; [done |]. simpl.
  destruct (str_truthy (strip l)) eqn:Hl; [done |]. intros H.
  destruct (str_truthy (re_sub_non_digits (strip l))) eqn:Hd.
  - by rewrite (digits_truthy_strip _ Hd) in Hl.
  - by apply IH.
Qed.

(** X16.  When the input file is missing or has no line but blank ones,
    both variants stop at once: no request is sent, nothing is written and
    the world is left as it was.  Over an endpoint whose payloads have the
    service's shape, variant 1 writes a table in every other case. *)
Theorem nothing_to_process (env : endpoint) (file : option string) (w : world) :
  (count_lines nonblank file = 0 →
   V1.main env file w = (Ok None, w) ∧
   ∀ google, V2.main google env file w = (Ok None, w)) ∧
  (env_shape env → count_lines nonblank file ≠ 0 →
   ∃ table w', V1.main env file w = (Ok (Some table), w')).
Proof.
  split.
  - intros Hcount.
    assert (H1 : V1.load_and_clean_cnpjs file = []).
    { apply length_zero_iff_nil. by rewrite V1_load_length. }
    assert (H2 : V2.load_and_clean_cnpjs file = []).
    { destruct file as [text|]; [| done]. simpl in *.
      rewrite V2_formatted_cnpjs_filter. rewrite V1_formatted_cnpjs_filter in H1.
      apply fmap_nil_inv in H1. by rewrite (no_nonblank_no_digit _ H1). }
    unfold V1.main, V2.main. by rewrite H1, H2.
  - intros Henv Hcount.
    destruct (V1_main_identifiers env file w Henv) as (table & w' & Hmain & Hids).
    destruct table as [table|]; [by eexists _, _ |].
    exfalso. simpl in Hids. rewrite <- V1_load_length in Hcount.
    destruct (V1.load_and_clean_cnpjs file) as [|c cs]; [done |].
    assert (Hc : c ∈ (∅ : gset string)).
    { rewrite Hids, list_to_set_cons. apply elem_of_union_l.
      by apply elem_of_singleton. }
    by apply not_elem_of_empty in Hc.
Qed.

Lemma nothing_to_process_witness :
  V1.main always_acme None fresh = (Ok None, fresh) ∧
  ∃ table w', V1.main always_acme formatted_and_blank fresh = (Ok (Some table), w').
Proof.
  destruct (nothing_to_process always_acme None fresh) as [H1 _].
  destruct (nothing_to_process always_acme formatted_and_blank fresh) as [_ H2].
  split.
  - apply H1. reflexivity.
  - apply H2; [intros k url; reflexivity | vm_compute; discriminate].
Defined.

Lemma writerows_placeholders (cnpjs : list string) :
  writerows V1.csv_field_names (V1.placeholder <$> cnpjs)
  = Ok ((λ c, [c; "N/A"; "N/A"]) <$> cnpjs).
Proof.
  induction cnpjs as [|c cnpjs IH]; [done |].
  unfold writerows in *. rewrite fmap_cons, traverse_cons, IH.
  destruct (record_v1_lookup c (V1.placeholder c) (placeholder_record_v1 c))
    as (_ & _ & ->).
  done.
Qed.

Lemma V1_batch_loop_all_fail (env : endpoint) (cnpjs : list string)
    (acc : list (gmap string string)) (w : world) :
  (∀ k url, failed (env k url) = true) →
  ∃ w',
    V1.batch_loop env cnpjs acc w = (Ok (acc ++ (V1.placeholder <$> cnpjs)), w') ∧
    requests w' = MAX_API_RETRIES * length cnpjs + requests w.
Proof.
  intros Hfail. revert acc w.
  induction cnpjs as [|c cnpjs IH]; intros acc w.
  - exists w. simpl. by rewrite app_nil_r.
  - destruct (V1_attempts_exhausted env (RECEITAWS_BASE_URL +:+ c)
                MAX_API_RETRIES 1 1 (pacing_wait w)) as (w1 & Hq & Hreq);
      [done | by intros |].
    destruct (IH (acc ++ [V1.placeholder c]) w1) as (w' & Hrun & Hreq').
    exists w'. simpl V1.batch_loop. unfold V1.query_receitaws_api.
    rewrite Hq. simpl. rewrite Hrun, <- app_assoc. split; [done |].
    rewrite Hreq', Hreq. simpl. unfold MAX_API_RETRIES. lia.
Qed.

(** X17.  When every response of the endpoint fails, variant 1 still
    finishes: it spends exactly five requests on each identifier and writes
    a table with one row per identifier, in input order, holding the
    identifier and ["N/A"] twice. *)
Theorem unreachable_service_gives_placeholders (env : endpoint)
    (file : option string) (w : world) :
  (∀ k url, failed (env k url) = true) →
  V1.load_and_clean_cnpjs file ≠ [] →
  ∃ w',
    V1.main env file w
    = (Ok (Some (V1.csv_field_names
                   :: ((λ c, [c; "N/A"; "N/A"]) <$> V1.load_and_clean_cnpjs file))),
       w') ∧
    requests w'
    = MAX_API_RETRIES * length (V1.load_and_clean_cnpjs file) + requests w.
Proof.
  intros Hfail Hne. unfold V1.main.
  destruct (V1_batch_loop_all_fail env (V1.load_and_clean_cnpjs file) [] w Hfail)
    as (w' & Hrun & Hreq).
  exists w'. split; [| exact Hreq].
  destruct (V1.load_and_clean_cnpjs file) as [|c cnpjs]; [done |].
  rewrite Hrun. simpl app. cbv iota.
  change (V1.placeholder c
          :: list_fmap string (gmap string string) V1.placeholder cnpjs)
    with (V1.placeholder <$> c :: cnpjs).
  by rewrite writerows_placeholders.
Qed.

Lemma unreachable_service_gives_placeholders_witness :
  ∃ w',
    V1.main always_down formatted_and_blank fresh
    = (Ok (Some [V1.csv_field_names; [sample_cnpj; "N/A"; "N/A"];
                 ["00000000000191"; "N/A"; "N/A"]]), w') ∧
    requests w' = 10.
Proof.
  apply (unreachable_service_gives_placeholders always_down formatted_and_blank fresh).
  - intros k url. reflexivity.
  - vm_compute. discriminate.
Defined.

Lemma join_nonempty (sep p : string) (more : list string) :
  p ≠ "" → join sep (p :: more) ≠ "".
Proof.
  intros Hp. destruct p as [|c p]; [done |].
  destruct more; simpl; done.
Qed.

(** X18.  Every row that the loop body of variant 2 builds has exactly the
    eight keys of the writer's header; it carries the identifier, and its
    [dono] is never empty. *)
Theorem v2_rows_match_header (google : json → string) (cnpj : string)
    (api_data : option json) (row : gmap string json) :
  V2.detailed_row google cnpj api_data = Ok row →
  dom row = list_to_set fieldnames_v2 ∧
  row !! "cnpj" = Some (JStr cnpj) ∧
  (∃ dono, row !! "dono" = Some (JStr dono) ∧ dono ≠ "") ∧
  (∃ telefone, row !! "telefone_site" = Some (JStr telefone)).
Proof.
  unfold V2.detailed_row, V2.extract_company_details.
  destruct (V2.or_empty_dict api_data) as [| | | | | fields]; try done.
  unfold dict_get. rewrite !bind_Ok.
  destruct (V2.process_api_response cnpj api_data) as [socios|e] eqn:Hp;
    [rewrite bind_Ok | by rewrite bind_Raise].
  destruct (V2_process_ok _ _ _ Hp) as [Hne Hall].
  pose proof (V2_process_clean _ _ _ Hp) as Hclean.
  rewrite (traverse_nome_qsa _ _ Hall), bind_Ok.
  unfold subscript at 1. rewrite lookup_insert_eq, bind_Ok.
  intros [= <-].
  split; [unfold fieldnames_v2; set_solver |].
  split; [by simplify_map_eq |]. split.
  - eexists. split; [by simplify_map_eq |].
    destruct socios as [|s socios]; [done |].
    apply join_nonempty. apply Forall_cons in Hclean as [(nome & Hn & Hc & _) _].
    unfold nome_of. by rewrite Hn.
  - eexists. by simplify_map_eq.
Qed.

Lemma v2_rows_match_header_witness :
  ∃ row, V2.detailed_row no_google sample_cnpj (Some two_partners) = Ok row ∧
         dom row = list_to_set fieldnames_v2 ∧
         row !! "dono" = Some (JStr "ANA/N/A").
Proof.
  destruct (V2.detailed_row no_google sample_cnpj (Some two_partners))
    as [row|e] eqn:Hrow; [| vm_compute in Hrow; discriminate Hrow].
  exists row. split; [done |].
  destruct (v2_rows_match_header no_google sample_cnpj (Some two_partners) row Hrow)
    as (Hdom & _).
  split; [exact Hdom |].
  vm_compute in Hrow. injection Hrow as <-. vm_compute. reflexivity.
Defined.

(** X19.  For an identifier without a payload (the lookup failed, or the
    body was empty or otherwise false) the row of variant 2 reads ["N/A"] in
    every company column and in [dono]; the telephone search is made all
    the same, for the company name ["N/A"]. *)
Theorem row_without_payload (google : json → string) (cnpj : string)
    (api_data : option json) :
  api_data = None ∨ (∃ data, api_data = Some data ∧ truthy data = false) →
  V2.detailed_row google cnpj api_data
  = Ok (<["telefone_site" := JStr (google (JStr "N/A"))]>
          (<["dono" := JStr "N/A"]>
             (<["cnpj" := JStr cnpj]>
                {[ "nome_empresa" := JStr "N/A";
                   "situacao" := JStr "N/A";
                   "cidade" := JStr "N/A";
                   "estado" := JStr "N/A";
                   "telefone_receita" := JStr "N/A" ]}))).
Proof.
  intros [-> | (data & -> & Ht)]; [done |].
  unfold V2.detailed_row, V2.process_api_response, V2.or_empty_dict.
  by rewrite Ht.
Qed.

Lemma row_without_payload_witness :
  V2.detailed_row no_google sample_cnpj (Some (JObj ∅))
  = Ok (<["telefone_site" := JStr "N/A"]>
          (<["dono" := JStr "N/A"]>
             (<["cnpj" := JStr sample_cnpj]>
                {[ "nome_empresa" := JStr "N/A";
                   "situacao" := JStr "N/A";
                   "cidade" := JStr "N/A";
                   "estado" := JStr "N/A";
                   "telefone_receita" := JStr "N/A" ]}))).
Proof.
  apply (row_without_payload no_google sample_cnpj (Some (JObj ∅))).
  right. by eexists.
Defined.

(** ** The telephone pattern *)

Lemma string_app_assoc (a b c : string) : (a +:+ b) +:+ c = a +:+ (b +:+ c).
Proof.
  induction a as [|x a IH]; [done |].
  change (String x ((a +:+ b) +:+ c) = String x (a +:+ (b +:+ c))).
  by rewrite IH.
Qed.

Lemma re_match_repeat (r : regex) (lo extra : nat) (s : string)
    (k : string → option string) :
  re_match (RRepeat r lo extra) s k
  = rep_exactly (re_match r) lo s (rep_at_most (re_match r) k extra).
Proof. reflexivity. Qed.

Lemma concat_words_app (ms1 ms2 : list string) :
  concat_words (ms1 ++ ms2) = concat_words ms1 +:+ concat_words ms2.
Proof.
  induction ms1 as [|m ms1 IH]; [done |].
  change (m +:+ concat_words (ms1 ++ ms2)
          = (m +:+ concat_words ms1) +:+ concat_words ms2).
  by rewrite IH, string_app_assoc.
Qed.

Section Repeat_facts.

Variable r : regex.

Hypothesis sound : ∀ s k out,
  re_match r s k = Some out →
  ∃ m s', s = m +:+ s' ∧ lang r m ∧ k s' = Some out.

Lemma rep_exactly_sound (n : nat) (s : string) (k : string → option string)
    (out : string) :
  rep_exactly (re_match r) n s k = Some out →
  ∃ ms s', length ms = n ∧ Forall (lang r) ms ∧
           s = concat_words ms +:+ s' ∧ k s' = Some out.
Proof.
  revert s. induction n as [|n IH]; intros s; simpl.
  - intros Hk. by exists [], s.
  - intros (m & s1 & -> & Hm & Hrest)%sound.
    apply IH in Hrest as (ms & s' & Hlen & Hall & -> & Hk).
    exists (m :: ms), s'. simpl. rewrite Hlen.
    split; [done |]. split; [by constructor |].
    split; [| done]. symmetry. apply string_app_assoc.
Qed.

Lemma rep_at_most_sound (k : string → option string) (n : nat) (s : string)
    (out : string) :
  rep_at_most (re_match r) k n s = Some out →
  ∃ ms s', (length ms ≤ n)%nat ∧ Forall (lang r) ms ∧
           s = concat_words ms +:+ s' ∧ k s' = Some out.
Proof.
  revert s. induction n as [|n IH]; intros s; simpl.
  - intros Hk. by exists [], s.
  - destruct (re_match r s (rep_at_most (re_match r) k n)) as [remains|] eqn:Hm.
    + intros [= ->]. apply sound in Hm as (m & s1 & -> & Hm & Hrest).
      apply IH in Hrest as (ms & s' & Hlen & Hall & -> & Hk).
      exists (m :: ms), s'. simpl.
      split; [lia |]. split; [by constructor |].
      split; [| done]. symmetry. apply string_app_assoc.
    + intros Hk. exists [], s. simpl. split; [lia | done].
Qed.

Hypothesis complete : ∀ m s' k out',
  lang r m → k s' = Some out' → ∃ out, re_match r (m +:+ s') k = Some out.

Lemma rep_exactly_complete (ms : list string) (s' : string)
    (k : string → option string) (out' : string) :
  Forall (lang r) ms → k s' = Some out' →
  ∃ out, rep_exactly (re_match r) (length ms) (concat_words ms +:+ s') k = Some out.
Proof.
  intros Hall Hk. induction Hall as [|m ms Hm Hrest [out IH]]; simpl.
  - by exists out'.
  - change (concat_words (m :: ms)) with (m +:+ concat_words ms).
    rewrite string_app_assoc. by eapply complete.
Qed.

Lemma rep_at_most_complete (ms : list string) (s' : string)
    (k : string → option string) (out' : string) (n : nat) :
  Forall (lang r) ms → (length ms ≤ n)%nat → k s' = Some out' →
  ∃ out, rep_at_most (re_match r) k n (concat_words ms +:+ s') = Some out.
Proof.
  intros Hall. revert n. induction Hall as [|m ms Hm Hrest IH]; intros n Hn Hk.
  - change (concat_words [] +:+ s') with s'.
    destruct n as [|n]; simpl; [by exists out' |].
    destruct (re_match r s' (rep_at_most (re_match r) k n));
      [by eexists | by exists out'].
  - destruct n as [|n]; [simpl in Hn; lia |].
    destruct (IH n ltac:(simpl in Hn; lia) Hk) as [out1 Hout1].
    change (concat_words (m :: ms)) with (m +:+ concat_words ms).
    rewrite string_app_assoc. simpl.
    destruct (complete m (concat_words ms +:+ s') _ _ Hm Hout1) as [out ->].
    by exists out.
Qed.

End Repeat_facts.

(** Whatever the matcher accepts is a word of the pattern, followed by a
    rest that the continuation accepts. *)
Lemma re_match_sound (r : regex) (s : string) (k : string → option string)
    (out : string) :
  re_match r s k = Some out →
  ∃ m s', s = m +:+ s' ∧ lang r m ∧ k s' = Some out.
Proof.
  revert s k out.
  induction r as [c | member | r1 IH1 r2 IH2 | r1 IH1 | r1 IH1 lo extra];
    intros s k out.
  - simpl. destruct s as [|c' rest]; [done |].
    destruct (Ascii.eqb_spec c' c) as [->|]; [| done].
    intros Hk. by exists (String c ""), rest.
  - simpl. destruct s as [|c' rest]; [done |].
    destruct (member c') eqn:Hc; [| done].
    intros Hk. exists (String c' ""), rest. split; [done |].
    split; [by exists c' | done].
  - simpl. intros (m1 & s1 & -> & Hm1 & H2)%IH1.
    apply IH2 in H2 as (m2 & s' & -> & Hm2 & Hk).
    exists (m1 +:+ m2), s'. split; [symmetry; apply string_app_assoc |].
    split; [by exists m1, m2 | done].
  - simpl. destruct (re_match r1 s k) as [remains|] eqn:Hm.
    + intros [= ->]. apply IH1 in Hm as (m & s' & -> & Hm & Hk).
      exists m, s'. split; [done |]. split; [by right | done].
    + intros Hk. exists "", s. split; [done |]. split; [by left | done].
  - rewrite re_match_repeat.
    intros (ms1 & s1 & Hlen1 & Hall1 & -> & H2)%(rep_exactly_sound r1 IH1).
    apply (rep_at_most_sound r1 IH1) in H2 as (ms2 & s' & Hlen2 & Hall2 & -> & Hk).
    exists (concat_words (ms1 ++ ms2)), s'.
    split; [by rewrite concat_words_app, string_app_assoc |].
    split; [| done]. exists (ms1 ++ ms2).
    rewrite length_app. split; [lia |]. split; [by apply Forall_app | done].
Qed.

(** Whenever a word of the pattern stands at the start of the text, and the
    continuation accepts what follows it, the matcher finds a match. *)
Lemma re_match_complete (r : regex) (m s' : string) (k : string → option string)
    (out' : string) :
  lang r m → k s' = Some out' → ∃ out, re_match r (m +:+ s') k = Some out.
Proof.
  revert m s' k out'.
  induction r as [c | member | r1 IH1 r2 IH2 | r1 IH1 | r1 IH1 lo extra];
    intros m s' k out'.
  - simpl. intros -> Hk. simpl. rewrite Ascii.eqb_refl. by exists out'.
  - simpl. intros (c & Hc & ->) Hk. simpl. rewrite Hc. by exists out'.
  - simpl. intros (m1 & m2 & -> & Hm1 & Hm2) Hk.
    rewrite string_app_assoc.
    destruct (IH2 m2 s' k out' Hm2 Hk) as [out2 Hout2].
    by eapply IH1.
  - simpl. intros [-> | Hm] Hk.
    + change ("" +:+ s') with s'. simpl.
      destruct (re_match r1 s' k); [by eexists | by exists out'].
    + destruct (IH1 m s' k out' Hm Hk) as [out ->]. by exists out.
  - simpl lang. intros (ms & [Hlo Hhi] & Hall & ->) Hk.
    rewrite re_match_repeat.
    rewrite <- (take_drop lo ms). rewrite <- (take_drop lo ms) in Hall.
    apply Forall_app in Hall as [Hall1 Hall2].
    fold (concat_words (take lo ms ++ drop lo ms)).
    rewrite concat_words_app, string_app_assoc.
    destruct (rep_at_most_complete r1 IH1 (drop lo ms) s' k out' extra Hall2)
      as [out2 Hout2]; [rewrite length_drop; lia | done |].
    destruct (rep_exactly_complete r1 IH1 (take lo ms)
                (concat_words (drop lo ms) +:+ s') _ _ Hall1 Hout2) as [out Hout].
    rewrite length_take, Nat.min_l in Hout by lia. by exists out.
Qed.

Lemma concat_words_length (ms : list string) (a b : nat) :
  Forall (λ m, (a ≤ String.length m ≤ b)%nat) ms →
  (length ms * a ≤ String.length (concat_words ms) ≤ length ms * b)%nat.
Proof.
  induction 1 as [|m ms Hm Hrest IH]; [simpl; lia |].
  change (concat_words (m :: ms)) with (m +:+ concat_words ms).
  rewrite length_app_string. simpl length. lia.
Qed.

(** The length of a word lies between the bounds of its pattern. *)
Lemma lang_length (r : regex) (m : string) :
  lang r m → (min_length r ≤ String.length m ≤ max_length r)%nat.
Proof.
  revert m.
  induction r as [c | member | r1 IH1 r2 IH2 | r1 IH1 | r1 IH1 lo extra];
    intros m.
  - intros ->. simpl. lia.
  - intros (c & _ & ->). simpl. lia.
  - intros (m1 & m2 & -> & H1%IH1 & H2%IH2). rewrite length_app_string.
    simpl. lia.
  - intros [-> | H%IH1]; simpl; lia.
  - intros (ms & Hlen & Hall & ->).
    assert (Hb : Forall (λ m, (min_length r1 ≤ String.length m ≤ max_length r1)%nat) ms).
    { eapply Forall_impl; [exact Hall | exact IH1]. }
    apply concat_words_length in Hb. fold (concat_words ms). simpl. nia.
Qed.

Lemma take_string_app (m s' : string) :
  take_string (String.length (m +:+ s') - String.length s') (m +:+ s') = m.
Proof.
  rewrite length_app_string.
  replace (String.length m + String.length s' - String.length s')
    with (String.length m) by lia.
  induction m as [|c m IH]; [by destruct s' |].
  change (String c (take_string (String.length m) (m +:+ s')) = String c m).
  by rewrite IH.
Qed.

Lemma findall_cons (r : regex) (c : ascii) (rest : string) (skip : nat) :
  findall r (String c rest) skip
  = match skip with
    | S skip' => findall r rest skip'
    | O =>
        match re_match r (String c rest) Some with
        | Some remains =>
            take_string (String.length (String c rest) - String.length remains)
              (String c rest)
            :: findall r rest
                 (String.length (String c rest) - String.length remains - 1)
        | None => findall r rest 0
        end
    end.
Proof. reflexivity. Qed.

(** Every match that [findall] lists is a word of the pattern and stands
    in the text. *)
Lemma findall_sound (r : regex) (text : string) (skip : nat) (found : string) :
  found ∈ findall r text skip →
  lang r found ∧ ∃ pre post, text = pre +:+ found +:+ post.
Proof.
  revert skip. induction text as [|c rest IH]; intros skip.
  - by intros ?%elem_of_nil.
  - assert (Hlater : ∀ n, found ∈ findall r rest n →
      lang r found ∧ ∃ pre post, String c rest = pre +:+ found +:+ post).
    { intros n (Hl & pre & post & ->)%IH. split; [done |].
      by exists (String c pre), post. }
    rewrite findall_cons.
    destruct skip as [|skip]; [| apply Hlater].
    destruct (re_match r (String c rest) Some) as [remains|] eqn:Hm;
      [| apply Hlater].
    intros [-> | Hin]%elem_of_cons; [| by eapply Hlater].
    apply re_match_sound in Hm as (m & s' & Htext & Hlang & [= <-]).
    rewrite Htext, take_string_app. split; [done |]. by exists "", s'.
Qed.

(** When a word of the pattern stands somewhere in the text, [findall]
    lists at least one match. *)
Lemma findall_complete (r : regex) (pre m post : string) :
  (0 < min_length r)%nat → lang r m →
  findall r (pre +:+ m +:+ post) 0 ≠ [].
Proof.
  intros Hmin Hm. induction pre as [|c pre IH].
  - change ("" +:+ m +:+ post) with (m +:+ post).
    destruct (re_match_complete r m post Some post Hm eq_refl) as [out Hout].
    apply lang_length in Hm as Hlen.
    destruct m as [|c m]; [simpl in Hlen; lia |].
    change (String c m +:+ post) with (String c (m +:+ post)) in *.
    rewrite findall_cons. by rewrite Hout.
  - change (String c pre +:+ m +:+ post) with (String c (pre +:+ m +:+ post)).
    rewrite findall_cons.
    by destruct (re_match r (String c (pre +:+ m +:+ post)) Some).
Qed.

Lemma re_sub_app (a b : string) :
  re_sub_non_digits (a +:+ b) = re_sub_non_digits a +:+ re_sub_non_digits b.
Proof.
  induction a as [|c a IH]; [done |].
  change (re_sub_non_digits (String c (a +:+ b))
          = re_sub_non_digits (String c a) +:+ re_sub_non_digits b).
  simpl. rewrite IH. by destruct (is_digit c).
Qed.

Lemma lang_digits (lo extra : nat) (m : string) :
  lang (RRepeat (RClass is_digit) lo extra) m →
  all_digits m = true ∧ (lo ≤ String.length m ≤ lo + extra)%nat.
Proof.
  intros (ms & Hlen & Hall & ->).
  assert (H : all_digits (concat_words ms) = true ∧
              String.length (concat_words ms) = length ms).
  { clear Hlen. induction Hall as [|m ms (c & Hc & ->) Hrest [IH1 IH2]]; [done |].
    change (concat_words (String c "" :: ms)) with (String c (concat_words ms)).
    simpl. by rewrite Hc, IH1, IH2. }
  destruct H as [Hd Hl]. fold (concat_words ms). rewrite Hl. done.
Qed.

(** The words of the telephone pattern. *)
Lemma lang_phone_shape (tel : string) :
  lang phone_pattern tel →
  (11 ≤ String.length tel ≤ 15)%nat ∧
  (String.length (re_sub_non_digits tel) = 10 ∨
   String.length (re_sub_non_digits tel) = 11) ∧
  ∃ front last4,
    tel = front +:+ "-" +:+ last4 ∧
    all_digits last4 = true ∧ String.length last4 = 4.
Proof.
  intros H. split; [exact (lang_length _ _ H) |].
  destruct H as (m1 & t1 & -> & Hopen & m2 & t2 & -> & Harea & m3 & t3 & ->
                 & Hclose & m4 & t4 & -> & Hsp & m5 & t5 & -> & Hlocal
                 & m6 & m7 & -> & Hdash & Hlast).
  apply lang_digits in Harea as [Harea Hlen2].
  apply lang_digits in Hlocal as [Hlocal Hlen5].
  apply lang_digits in Hlast as [Hlast Hlen7].
  simpl in Hdash. subst m6.
  assert (H1 : re_sub_non_digits m1 = "") by (by destruct Hopen as [-> | ->]).
  assert (H3 : re_sub_non_digits m3 = "") by (by destruct Hclose as [-> | ->]).
  assert (H4 : re_sub_non_digits m4 = "").
  { destruct Hsp as [-> | (c & Hc & ->)]; [done |].
    simpl. by rewrite (space_not_digit _ Hc). }
  split.
  - rewrite !re_sub_app, H1, H3, H4, !(re_sub_digits _ Harea),
      !(re_sub_digits _ Hlocal), !(re_sub_digits _ Hlast).
    change (re_sub_non_digits "-") with "".
    rewrite !length_app_string. simpl String.length. lia.
  - exists (m1 +:+ m2 +:+ m3 +:+ m4 +:+ m5), m7.
    split; [by rewrite !string_app_assoc |]. split; [done | lia].
Qed.

(** X20.  A telephone number that [get_phone_from_website] returns stands
    in the text of a page that was fetched without an error status.  It is
    11 to 15 characters long, holds 10 or 11 digits, and ends with a hyphen
    followed by four digits. *)
Theorem phone_from_website_shape (web : string → page) (url tel : string) :
  get_phone_from_website web url = Some tel →
  (∃ status_code text pre post,
     web url = Page status_code text ∧
     raise_for_status status_code = false ∧
     text = pre +:+ tel +:+ post) ∧
  lang phone_pattern tel ∧
  (11 ≤ String.length tel ≤ 15)%nat ∧
  (String.length (re_sub_non_digits tel) = 10 ∨
   String.length (re_sub_non_digits tel) = 11) ∧
  ∃ front last4,
    tel = front +:+ "-" +:+ last4 ∧
    all_digits last4 = true ∧ String.length last4 = 4.
Proof.
  unfold get_phone_from_website.
  destruct (web url) as [|status_code text]; [done |].
  destruct (raise_for_status status_code) eqn:Hst; [done |].
  destruct (findall phone_pattern text 0) as [|first more] eqn:Hfound; [done |].
  intros [= ->].
  destruct (findall_sound phone_pattern text 0 tel) as (Hlang & pre & post & ->).
  { rewrite Hfound. by left. }
  split; [by eexists status_code, _, pre, post |].
  split; [done |]. by apply lang_phone_shape.
Qed.

Lemma phone_from_website_shape_witness :
  lang phone_pattern "(11) 3456-7890" ∧
  (11 ≤ String.length "(11) 3456-7890" ≤ 15)%nat.
Proof.
  destruct (phone_from_website_shape (λ _, Page 200 page_with_phone) "x"
              "(11) 3456-7890") as (_ & H1 & H2 & _).
  - vm_compute. reflexivity.
  - split; [exact H1 | exact H2].
Defined.

(** X21.  [get_phone_from_website] returns a number exactly when the page
    is fetched without an error status and a piece of its text has the
    form of the pattern: an optional ['('], two digits, an optional [')'],
    an optional white space, four or five digits, a hyphen and four
    digits. *)
Theorem phone_found_iff_present (web : string → page) (url : string) :
  (∃ tel, get_phone_from_website web url = Some tel)
  ↔ ∃ status_code text pre m post,
      web url = Page status_code text ∧
      raise_for_status status_code = false ∧
      text = pre +:+ m +:+ post ∧ lang phone_pattern m.
Proof.
  split.
  - intros [tel Htel].
    destruct (findall phone_pattern
                match web url with Page _ text => text | PageFailed => "" end 0)
      as [|first more] eqn:Hfound.
    + unfold get_phone_from_website in Htel.
      destruct (web url) as [|status_code text]; [done |].
      destruct (raise_for_status status_code); [done |]. by rewrite Hfound in Htel.
    + unfold get_phone_from_website in Htel.
      destruct (web url) as [|status_code text]; [done |].
      destruct (raise_for_status status_code) eqn:Hst; [done |].
      destruct (findall_sound phone_pattern text 0 first)
        as (Hlang & pre & post & ->); [rewrite Hfound; by left |].
      by eexists status_code, _, pre, first, post.
  - intros (status_code & text & pre & m & post & Hweb & Hst & -> & Hm).
    unfold get_phone_from_website. rewrite Hweb, Hst.
    pose proof (findall_complete phone_pattern pre m post
                  ltac:(vm_compute; lia) Hm) as Hne.
    destruct (findall phone_pattern (pre +:+ m +:+ post) 0); [done |].
    by eexists.
Qed.

Lemma phone_shape_nonempty (web : string → page) (url found : string) :
  get_phone_from_website web url = Some found →
  ∃ c rest, found = String c rest.
Proof.
  unfold get_phone_from_website.
  destruct (web url) as [|status_code text]; [done |].
  destruct (raise_for_status status_code); [done |].
  destruct (findall phone_pattern text 0) as [|first more] eqn:Hfound; [done |].
  intros [= ->].
  destruct (findall_sound phone_pattern text 0 found) as [Hlang _];
    [rewrite Hfound; by left |].
  apply lang_length in Hlang. destruct found as [|c rest]; [| by eexists _, _].
  vm_compute in Hlang. lia.
Qed.

Lemma url_loop_Some (web : string → page) (urls : list string) (tel : string) :
  url_loop web urls = Some tel →
  tel ≠ "" ∧ ∃ url, url ∈ urls ∧ get_phone_from_website web url = Some tel.
Proof.
  induction urls as [|url more IH]; [done |]. simpl.
  assert (Hmore : url_loop web more = Some tel →
    tel ≠ "" ∧ ∃ url', url' ∈ url :: more ∧
                       get_phone_from_website web url' = Some tel).
  { intros (Hne & url' & Hin & Hget)%IH. split; [done |].
    exists url'. split; [by right | done]. }
  destruct (get_phone_from_website web url) as [found|] eqn:Hget; [| exact Hmore].
  destruct (str_truthy found) eqn:Ht; [| exact Hmore].
  intros [= ->]. split; [by destruct tel |].
  exists url. split; [by left | done].
Qed.

(** X22.  [get_telefone_site_empresa] never answers an empty text: it
    answers either ["N/A"] or a number that [get_phone_from_website] found
    on one of the pages that the search yielded.  It answers ["N/A"] when
    the search yields nothing (or raises at once) and when no page gives a
    number; and when the first page gives a number, that is the answer. *)
Theorem telefone_site_answer (str_of_value : json → string)
    (search : string → list string) (web : string → page) (company_name : json) :
  let tel := get_telefone_site_empresa str_of_value search web company_name in
  let urls := search ("site official " +:+ format_value str_of_value company_name) in
  tel ≠ "" ∧
  (tel = "N/A" ∨
   ∃ url, url ∈ urls ∧ get_phone_from_website web url = Some tel) ∧
  (Forall (λ url, get_phone_from_website web url = None) urls → tel = "N/A") ∧
  (∀ url more found,
     urls = url :: more → get_phone_from_website web url = Some found →
     tel = found).
Proof.
  intros tel urls. subst tel. unfold get_telefone_site_empresa. fold urls.
  split; [| split; [| split]].
  - destruct (url_loop web urls) as [t|] eqn:Hl; [| done].
    by apply url_loop_Some in Hl as [Hne _].
  - destruct (url_loop web urls) as [t|] eqn:Hl; [| by left].
    right. by apply url_loop_Some in Hl as [_ Hurl].
  - intros Hall. induction Hall as [|url more Hurl Hrest IH]; [done |].
    simpl. by rewrite Hurl.
  - intros url more found -> Hget. simpl. rewrite Hget.
    destruct (phone_shape_nonempty web url found Hget) as [c [rest ->]].
    done.
Qed.

Lemma telefone_site_answer_witness :
  get_telefone_site_empresa (λ _, "") (λ _, ["https://acme.example"])
    (λ _, Page 200 page_with_phone) (JStr "ACME")
  = "(11) 3456-7890".
Proof.
  destruct (telefone_site_answer (λ _, "") (λ _, ["https://acme.example"])
              (λ _, Page 200 page_with_phone) (JStr "ACME")) as (_ & _ & _ & H).
  apply (H "https://acme.example" []); [reflexivity | vm_compute; reflexivity].
Defined.

Lemma phone_found_iff_present_witness :
  ∃ status_code text pre m post,
    Page 200 page_with_phone = Page status_code text ∧
    raise_for_status status_code = false ∧
    text = pre +:+ m +:+ post ∧ lang phone_pattern m.
Proof.
  apply (proj1 (phone_found_iff_present (λ _, Page 200 page_with_phone) "x")).
  eexists. vm_compute. reflexivity.
Defined.


Lemma lookup_waits_double_witness :
  (10 = 5 * 2 ^ Z.of_nat 1 ∨ 10 = 2 * 2 ^ Z.of_nat 1)%Z.
Proof.
  destruct (lookup_waits_double too_many_twice sample_cnpj fresh) as (_ & H & _).
  apply (H 1 10%Z). vm_compute. reflexivity.
Defined.
